(** * The participation roster of the chat bot (bot.py)

    The bot keeps one global roster in a single SQLite table

      participants(id INTEGER PRIMARY KEY AUTOINCREMENT, user_id INTEGER, username TEXT)

    which [setup_database] drops and recreates when the process starts.
    Every roster function of bot.py opens the table, runs one or two SQL
    statements and closes it again.  This file embeds the table and those
    statements, state passed explicitly, and proves the roster properties
    of the specification.

    Modelling decisions, all taken from the source:
    - a table is the list of its rows in rowid order, the order in which
      SQLite scans a rowid table that has no other index;
    - AUTOINCREMENT keeps, next to the rows, the largest rowid ever handed
      out (table sqlite_sequence); DELETE never lowers it.  Only the bot
      writes the table and it never supplies an id, so the counter bounds
      every rowid in the table and the next rowid is the counter plus one;
      rowids are unbounded integers, SQLite's limit of 2^63 - 1 being out
      of reach of any run;
    - the functions of bot.py have no [await] between their statements, so
      each one runs atomically with respect to the other handlers;
    - storage failures ([sqlite3.Error]) come from the environment and are
      left out: every statement succeeds;
    - MAX_PARTICIPANTS and RESPONSES are imported from the bot's config
      module: they are parameters here. *)

From Stdlib Require Import String Ascii ZArith Lia Bool Arith PeanoNat List.
From Stdlib Require Import Sorting.Sorted Sorting.Permutation DecimalString.
Import ListNotations.

Local Open Scope Z_scope.

(** ** Rows and tables *)

Record row : Type := mkRow
  { id : Z;              (* INTEGER PRIMARY KEY AUTOINCREMENT *)
    user_id : Z;         (* INTEGER *)
    username : string }. (* TEXT *)

(** The database file: the rows of [participants] in rowid order, and the
    AUTOINCREMENT counter of the table. *)
Record db : Type := mkDb
  { rows : list row;
    seq : Z }.

(** [setup_database]: DROP TABLE IF EXISTS, then CREATE TABLE.  Dropping the
    table also drops its sqlite_sequence entry, so counting restarts. *)
Definition setup_database : db := {| rows := []; seq := 0 |}.

(** ** SQL statements used by bot.py *)

(** SELECT COUNT( * ) FROM participants *)
Definition select_count (t : list row) : nat := length t.

(** INSERT INTO participants (user_id, username) VALUES (?, ?): the new row
    gets the rowid after the largest one ever used, and lands at the end of
    the rowid order.  The second component is [cursor.rowcount]. *)
Definition insert_row (uid : Z) (name : string) (d : db) : db * nat :=
  let i := seq d + 1 in
  ({| rows := rows d ++ [mkRow i uid name]; seq := i |}, 1%nat).

(** SELECT id FROM participants WHERE user_id=? ORDER BY id DESC LIMIT 1:
    the largest id among the rows of the user, NULL ([None]) without rows.
    Computed as a maximum, whatever the scan order. *)
Fixpoint select_last_id (uid : Z) (t : list row) : option Z :=
  match t with
  | [] => None
  | r :: t' =>
      if user_id r =? uid then
        match select_last_id uid t' with
        | Some j => Some (Z.max (id r) j)
        | None => Some (id r)
        end
      else select_last_id uid t'
  end.

(** DELETE FROM participants WHERE id = (subquery): every row whose id
    equals the value of the subquery goes; comparing with NULL is never
    true, so nothing goes then.  The second component is [cursor.rowcount]. *)
Definition delete_where_id (sub : option Z) (d : db) : db * nat :=
  match sub with
  | None => (d, 0%nat)
  | Some i =>
      ({| rows := filter (fun r => negb (id r =? i)) (rows d); seq := seq d |},
       length (filter (fun r => id r =? i) (rows d)))
  end.

(** DELETE FROM participants *)
Definition delete_all (d : db) : db := {| rows := []; seq := seq d |}.

(** SELECT username FROM participants *)
Definition select_usernames (t : list row) : list string := map username t.

(** ** Python-level helpers *)

(** [str(n)] of a non-negative int, as an f-string prints it. *)
Definition str_of_nat (n : nat) : string :=
  NilEmpty.string_of_uint (Nat.to_uint n).

Definition newline : string := String "010"%char EmptyString.

(** A Python dict from str to int, as far as [format_participants_list]
    uses it: keys stay in the order of their first insertion, assigning to an
    existing key replaces the value in place. *)
Definition pydict : Type := list (string * nat).

Fixpoint dict_get (k : string) (default : nat) (d : pydict) : nat :=
  match d with
  | [] => default
  | (k', v) :: d' => if String.eqb k' k then v else dict_get k default d'
  end.

Fixpoint dict_set (k : string) (v : nat) (d : pydict) : pydict :=
  match d with
  | [] => [(k, v)]
  | (k', v') :: d' =>
      if String.eqb k' k then (k', v) :: d' else (k', v') :: dict_set k v d'
  end.

(** ** The roster functions of bot.py *)

Section Roster.

(** From config.py: the capacity of the roster (a number of entries) and
    the table of reply texts. *)
Variable MAX_PARTICIPANTS : nat.
Variable RESPONSES : string -> string.

Definition get_participants_count (d : db) : nat := select_count (rows d).

(** The SELECT COUNT after the INSERT only feeds the log. *)
Definition add_participant (uid : Z) (name : string) (d : db) : db * bool :=
  if (MAX_PARTICIPANTS <=? get_participants_count d)%nat then (d, false)
  else
    let (d', rowcount) := insert_row uid name d in
    let success := (0 <? rowcount)%nat in
    (d', success).

(** The GROUP BY query before the DELETE and the COUNT after it only feed
    the log; the result is [cursor.rowcount > 0] of the DELETE. *)
Definition remove_participant (uid : Z) (d : db) : db * bool :=
  let (d', rowcount) := delete_where_id (select_last_id uid (rows d)) d in
  let success := (0 <? rowcount)%nat in
  (d', success).

Definition get_all_participants (d : db) : list string :=
  select_usernames (rows d).

(** [clear_list], the scheduled job: DELETE, then the reply to the job's chat. *)
Definition clear_list (d : db) : db * string :=
  (delete_all d, RESPONSES "list_cleared").

(** [clear_command]: [chat] is [update.effective_chat], [status] the
    [member.status] that the platform's get_chat_member answers. *)
Definition clear_command (chat : option Z) (status : string) (d : db)
  : db * option string :=
  match chat with
  | None => (d, None)
  | Some _ =>
      let is_admin :=
        existsb (String.eqb status) ["creator"; "administrator"]%string in
      if negb is_admin then (d, Some (RESPONSES "not_admin"))
      else (delete_all d, Some (RESPONSES "list_cleared"))
  end.

(** The loop that fills [participant_counts]. *)
Definition count_names (participants : list string) : pydict :=
  fold_left (fun counts name => dict_set name (dict_get name 0%nat counts + 1)%nat counts)
            participants [].

Definition format_entry (item : string * nat) : string :=
  let (name, count) := item in
  let entry := ("👤 " ++ name)%string in
  if (1 <? count)%nat then (entry ++ " (x" ++ str_of_nat count ++ ")")%string
  else entry.

Definition format_participants_list (participants : list string) : string :=
  match participants with
  | [] => RESPONSES "list_empty"
  | _ =>
      let formatted_list := map format_entry (count_names participants) in
      let count := length participants in
      ("Участники (" ++ str_of_nat count ++ "/" ++ str_of_nat MAX_PARTICIPANTS
         ++ "):" ++ newline ++ String.concat newline formatted_list)%string
  end.

End Roster.

(** ** Runs of the roster *)

(** The operations of the RosterStore that change the table. *)
Inductive op : Type :=
| Add (uid : Z) (name : string)
| RemoveOne (uid : Z)
| ClearAll.

Definition step (cap : nat) (d : db) (o : op) : db :=
  match o with
  | Add uid name => fst (add_participant cap uid name d)
  | RemoveOne uid => fst (remove_participant uid d)
  | ClearAll => delete_all d
  end.

(** The table after a sequence of operations on the freshly created one. *)
Definition run (cap : nat) (ops : list op) : db :=
  fold_left (step cap) ops setup_database.

(** ** Well-formed tables *)

(** The ids of [t], read in order, increase strictly and stay in (lo, hi]. *)
Fixpoint ids_between (lo hi : Z) (t : list row) : bool :=
  match t with
  | [] => true
  | r :: t' => (lo <? id r) && (id r <=? hi) && ids_between (id r) hi t'
  end.

(** What SQLite maintains for a rowid table with AUTOINCREMENT: rows in
    increasing rowid order, rowids positive and bounded by the counter. *)
Definition well_formed (d : db) : Prop :=
  (0 <=? seq d) && ids_between 0 (seq d) (rows d) = true.

(** ORDER BY id, written independently of the storage order: insertion sort. *)
Fixpoint insert_by_id (r : row) (t : list row) : list row :=
  match t with
  | [] => [r]
  | r' :: t' => if id r <=? id r' then r :: t else r' :: insert_by_id r t'
  end.

Fixpoint sort_by_id (t : list row) : list row :=
  match t with
  | [] => []
  | r :: t' => insert_by_id r (sort_by_id t')
  end.

(** The user's entry that RemoveOne must pick: [r] belongs to [uid] and no
    entry of [uid] has a larger id. *)
Definition latest_entry_of (uid : Z) (t : list row) (r : row) : Prop :=
  In r t /\ user_id r = uid /\
  forall r', In r' t -> user_id r' = uid -> id r' <= id r.

(** ** The roster as the specification describes it *)

(** The glossary's roster: the entries (user_id, display_name) in the order
    of their insertion, with no ids.  Add appends unless the roster is full,
    RemoveOne drops the user's last entry, ClearAll drops everything. *)
Definition spec_roster : Type := list (Z * string).

Definition spec_add (cap : nat) (uid : Z) (name : string) (l : spec_roster)
  : spec_roster :=
  if (cap <=? length l)%nat then l else l ++ [(uid, name)].

Fixpoint spec_remove_one (uid : Z) (l : spec_roster) : spec_roster :=
  match l with
  | [] => []
  | e :: l' =>
      if existsb (fun e' => fst e' =? uid) l' then e :: spec_remove_one uid l'
      else if fst e =? uid then l' else e :: l'
  end.

Definition spec_step (cap : nat) (l : spec_roster) (o : op) : spec_roster :=
  match o with
  | Add uid name => spec_add cap uid name l
  | RemoveOne uid => spec_remove_one uid l
  | ClearAll => []
  end.

Definition spec_run (cap : nat) (ops : list op) : spec_roster :=
  fold_left (spec_step cap) ops [].

Definition entry_of (r : row) : Z * string := (user_id r, username r).

(** ** Sample tables *)

(** Users 10 and 20 joined once each. *)
Definition roster_AB : db :=
  {| rows := [mkRow 1 10 "A"; mkRow 2 20 "B"]; seq := 2 |}.

(** User 10 joined twice around user 20; the rows with ids 3 and 5 were
    deleted again. *)
Definition roster_ABA : db :=
  {| rows := [mkRow 1 10 "A"; mkRow 2 20 "B"; mkRow 4 10 "A"]; seq := 5 |}.

(** ** Rendering, as the specification words it *)

(** The distinct names in the order of their first occurrence. *)
Fixpoint first_occurrences (l : list string) : list string :=
  match l with
  | [] => []
  | x :: l' => x :: filter (fun y => negb (String.eqb x y)) (first_occurrences l')
  end.

Definition occurrences (name : string) (l : list string) : nat :=
  count_occ string_dec l name.

(** Membership test on names. *)
Definition mem (x : string) (l : list string) : bool :=
  existsb (String.eqb x) l.

(** The dict with keys [K], in that order, and the value [g k] at key [k]. *)
Definition tabulate (g : string -> nat) (K : list string) : pydict :=
  map (fun n => (n, g n)) K.

(** The header: total number of entries and capacity. *)
Definition roster_header (count cap : nat) : string :=
  ("Участники (" ++ str_of_nat count ++ "/" ++ str_of_nat cap ++ "):")%string.

(** The line of a name that occurs [n] times. *)
Definition roster_line (name : string) (n : nat) : string :=
  if (n =? 1)%nat then ("👤 " ++ name)%string
  else ("👤 " ++ name ++ " (x" ++ str_of_nat n ++ ")")%string.

(** Split at every line feed. *)
Fixpoint lines_from (cur : string) (s : string) : list string :=
  match s with
  | EmptyString => [cur]
  | String c s' =>
      if Ascii.eqb c "010"%char then cur :: lines_from EmptyString s'
      else lines_from (cur ++ String c EmptyString)%string s'
  end.

Definition lines (s : string) : list string := lines_from EmptyString s.

(** * The audit log (utils.py) *)

Module AuditLog.

(** A value that [json.load] returns and [json.dump] writes. *)
#[warnings="-register-all"]
Inductive json : Type :=
| JNull
| JBool (b : bool)
| JInt (z : Z)
| JFloat (repr : string)
| JStr (s : string)
| JArr (items : list json)
| JObj (members : list (string * json)).

(** The file bot_logs.json as [open] and [json.load] see it: absent
    (FileNotFoundError), text that is no JSON document (JSONDecodeError),
    failing in another way when opened or read (wrong encoding, no
    permission), or holding the document [v].  A document that [json.dump]
    wrote is the document that [json.load] reads back. *)
Inductive logfile : Type :=
| Missing
| NotJson
| Unreadable
| Holds (v : json).

(** The dict [log_entry]; [now] is [datetime.now().isoformat()]. *)
Definition log_entry (now : string) (user_id : Z) (username command message : string)
  : json :=
  JObj [("timestamp", JStr now); ("user_id", JInt user_id);
        ("username", JStr username); ("command", JStr command);
        ("message", JStr message)]%string.

(** The inner try of [log_command]: the two exceptions it names give the
    empty list, any other one ([None]) goes on to the outer handler. *)
Definition read_logs (f : logfile) : option json :=
  match f with
  | Missing | NotJson => Some (JArr [])
  | Unreadable => None
  | Holds v => Some v
  end.

(** [logs.append(x)]: only a list has the method; for any other value the
    attribute lookup raises ([None]). *)
Definition py_append (logs x : json) : option json :=
  match logs with
  | JArr items => Some (JArr (items ++ [x]))
  | _ => None
  end.

(** [log_command]: whatever is raised before the file is opened for writing
    is caught and logged by the outer handler, and the file stays as it is. *)
Definition log_command (now : string) (user_id : Z) (username command message : string)
    (f : logfile) : logfile :=
  match read_logs f with
  | None => f
  | Some logs =>
      match py_append logs (log_entry now user_id username command message) with
      | None => f
      | Some logs' => Holds logs'
      end
  end.

(** [get_logs]: [None] when the exception is not one of the two it names
    and leaves the function. *)
Definition get_logs (f : logfile) : option json :=
  match f with
  | Missing | NotJson => Some (JArr [])
  | Unreadable => None
  | Holds v => Some v
  end.

(** One call of [log_command]. *)
Record call : Type := mkCall
  { at_time : string;
    by_user : Z;
    by_name : string;
    command : string;
    message : string }.

Definition entry_of_call (c : call) : json :=
  log_entry (at_time c) (by_user c) (by_name c) (command c) (message c).

Definition log_call (f : logfile) (c : call) : logfile :=
  log_command (at_time c) (by_user c) (by_name c) (command c) (message c) f.

(** The file after the calls, in order. *)
Definition log_calls (calls : list call) (f : logfile) : logfile :=
  fold_left log_call calls f.

(** The records a file offers to append to: none for an absent file or one
    that is no JSON, the items of a JSON list; no such thing otherwise. *)
Definition held_list (f : logfile) : option (list json) :=
  match f with
  | Missing | NotJson => Some []
  | Holds (JArr items) => Some items
  | _ => None
  end.

End AuditLog.

(** * The handlers (bot.py) *)

(** Each handler is a function of the update and of what the handlers
    share, and gives the text it passes to [reply_text].  Sending the reply
    and the calls of the logger are left out: they change neither the table
    nor the log file, and sending is taken to succeed. *)

Module Router.

Import AuditLog.

(** The text of a message, a Python str: its code points. *)
Definition text : Type := list N.

(** [str.isspace] on one code point. *)
Definition isspace (c : N) : bool :=
  ((9 <=? c) && (c <=? 13) || (28 <=? c) && (c <=? 32)
   || (c =? 133) || (c =? 160) || (c =? 5760)
   || (8192 <=? c) && (c <=? 8202)
   || (c =? 8232) || (c =? 8233) || (c =? 8239) || (c =? 8287)
   || (c =? 12288))%N.

Fixpoint lstrip (s : text) : text :=
  match s with
  | [] => []
  | c :: s' => if isspace c then lstrip s' else s
  end.

Definition rstrip (s : text) : text := rev (lstrip (rev s)).

(** [str.strip()] *)
Definition strip (s : text) : text := rstrip (lstrip s).

Fixpoint text_eqb (s t : text) : bool :=
  match s, t with
  | [], [] => true
  | c :: s', c' :: t' => (c =? c')%N && text_eqb s' t'
  | _, _ => false
  end.

(** "+" and "-" *)
Definition plus : text := [43%N].
Definition minus : text := [45%N].

(** [update.effective_user], as far as the handlers read it. *)
Record user : Type := mkUser
  { tg_id : Z;
    first_name : string }.

(** What the handlers share: the table and the log file. *)
Record bot : Type := mkBot
  { table : db;
    audit : logfile }.

Section Handlers.

Variable MAX_PARTICIPANTS : nat.
Variable RESPONSES : string -> string.

(** [template.format(a, b)] for a template of the config module and two
    ints; [None] when the template makes [str.format] raise. *)
Variable FORMAT : string -> nat -> nat -> option string.

(** [handle_message].  [msg] is [update.message.text], [None] when the
    update has no message or the message no text.  The second component is
    the text passed to [reply_text], [None] when nothing is sent.  The
    [try] covers everything from the roster call to the log record: when
    formatting the reply raises, the handler answers RESPONSES['error']. *)
Definition handle_message (now : string) (msg : option text) (u : user) (b : bot)
  : bot * option string :=
  match msg with
  | None | Some [] => (b, None)
  | Some t =>
      let message := strip t in
      if text_eqb message plus then
        let (d, added) :=
          add_participant MAX_PARTICIPANTS (tg_id u) (first_name u) (table b) in
        if added then
          let count := get_participants_count d in
          let participants := get_all_participants d in
          let list_message :=
            format_participants_list MAX_PARTICIPANTS RESPONSES participants in
          match FORMAT (RESPONSES "participated") count MAX_PARTICIPANTS with
          | Some head =>
              ({| table := d;
                  audit := log_command now (tg_id u) (first_name u) "participate"
                             ("Added to global list. Total: " ++ str_of_nat count)
                             (audit b) |},
               Some (head ++ newline ++ newline ++ list_message)%string)
          | None => ({| table := d; audit := audit b |}, Some (RESPONSES "error"))
          end
        else ({| table := d; audit := audit b |}, Some (RESPONSES "list_full"))
      else if text_eqb message minus then
        let (d, removed) := remove_participant (tg_id u) (table b) in
        if removed then
          let count := get_participants_count d in
          let participants := get_all_participants d in
          let list_message :=
            format_participants_list MAX_PARTICIPANTS RESPONSES participants in
          match FORMAT (RESPONSES "removed") count MAX_PARTICIPANTS with
          | Some head =>
              ({| table := d;
                  audit := log_command now (tg_id u) (first_name u) "remove"
                             ("Removed from global list. Total: " ++ str_of_nat count)
                             (audit b) |},
               Some (head ++ newline ++ newline ++ list_message)%string)
          | None => ({| table := d; audit := audit b |}, Some (RESPONSES "error"))
          end
        else ({| table := d; audit := audit b |}, Some (RESPONSES "not_in_list"))
      else (b, None)
  end.

(** [list_participants_cmd] *)
Definition list_participants_cmd (now : string) (u : user) (b : bot)
  : bot * option string :=
  let participants := get_all_participants (table b) in
  let list_message :=
    format_participants_list MAX_PARTICIPANTS RESPONSES participants in
  ({| table := table b;
      audit := log_command now (tg_id u) (first_name u) "/list"
                 ("Listed " ++ str_of_nat (length participants) ++ " participants")
                 (audit b) |},
   Some list_message).

(** [start] *)
Definition start (now : string) (u : user) (b : bot) : bot * option string :=
  ({| table := table b;
      audit := log_command now (tg_id u) (first_name u) "/start"
                 "Started bot interaction" (audit b) |},
   Some (RESPONSES "welcome")).

(** [help_command] *)
Definition help_command (now : string) (u : user) (b : bot) : bot * option string :=
  ({| table := table b;
      audit := log_command now (tg_id u) (first_name u) "/help"
                 "Requested help information" (audit b) |},
   Some (RESPONSES "help")).

(** [clear_command] with its log record.  [chat] is [update.effective_chat];
    [member] is the [member.status] that get_chat_member answers, [None]
    when the call raises. *)
Definition clear_command (now : string) (chat : option Z) (member : option string)
    (u : user) (b : bot) : bot * option string :=
  match chat with
  | None => (b, None)
  | Some _ =>
      match member with
      | None => (b, Some (RESPONSES "error"))
      | Some status =>
          let is_admin :=
            existsb (String.eqb status) ["creator"; "administrator"]%string in
          if negb is_admin then (b, Some (RESPONSES "not_admin"))
          else
            ({| table := delete_all (table b);
                audit := log_command now (tg_id u) (first_name u) "/clear"
                           "Manually cleared participant list" (audit b) |},
             Some (RESPONSES "list_cleared"))
      end
  end.

(** The handlers that [main] registers: four commands and the text
    messages. *)
Inductive event : Type :=
| StartCmd
| HelpCmd
| ListCmd
| ClearCmd (chat : option Z) (member : option string)
| TextMessage (msg : option text).

(** An update as it reaches its handler, with the time of the clock then. *)
Record update : Type := mkUpdate
  { clock : string;
    sender : user;
    what : event }.

Definition handle (b : bot) (up : update) : bot * option string :=
  match what up with
  | StartCmd => start (clock up) (sender up) b
  | HelpCmd => help_command (clock up) (sender up) b
  | ListCmd => list_participants_cmd (clock up) (sender up) b
  | ClearCmd chat member => clear_command (clock up) chat member (sender up) b
  | TextMessage msg => handle_message (clock up) msg (sender up) b
  end.

(** The bot after the updates, handled one after the other. *)
Definition run_updates (ups : list update) (b : bot) : bot :=
  fold_left (fun b up => fst (handle b up)) ups b.

End Handlers.

(** [main] up to the polling loop: the table is created anew, the log file
    is what the previous runs left. *)
Definition startup (f : logfile) : bot := {| table := setup_database; audit := f |}.

End Router.

(** ** More sample data *)

Definition list_sum_counts (d : pydict) : nat := list_sum (map snd d).

(** The rows of one user, in table order. *)
Definition rows_of (uid : Z) (t : list row) : list row :=
  filter (fun r => user_id r =? uid) t.

(** * Lemmas on the table *)

Lemma ids_between_Forall lo hi t :
  ids_between lo hi t = true -> Forall (fun r => lo < id r <= hi) t.
Proof.
  revert lo; induction t as [|r t IH]; intros lo H; simpl in H.
  - constructor.
  - apply andb_true_iff in H as [H Ht]. apply andb_true_iff in H as [H1 H2].
    apply Z.ltb_lt in H1. apply Z.leb_le in H2.
    constructor; [lia|].
    eapply Forall_impl; [|apply (IH _ Ht)]. simpl; intros; lia.
Qed.

Lemma ids_between_weaken lo lo' hi hi' t :
  lo' <= lo -> hi <= hi' ->
  ids_between lo hi t = true -> ids_between lo' hi' t = true.
Proof.
  revert lo lo'; induction t as [|r t IH]; intros lo lo' Hlo Hhi H; simpl in *.
  - reflexivity.
  - apply andb_true_iff in H as [H Ht]. apply andb_true_iff in H as [H1 H2].
    apply Z.ltb_lt in H1. apply Z.leb_le in H2.
    rewrite (IH (id r) (id r)); [|lia|lia|exact Ht].
    replace (lo' <? id r) with true by (symmetry; apply Z.ltb_lt; lia).
    replace (id r <=? hi') with true by (symmetry; apply Z.leb_le; lia).
    reflexivity.
Qed.

Lemma ids_between_snoc lo hi t r :
  ids_between lo hi t = true -> hi < id r ->
  lo <= hi -> ids_between lo (id r) (t ++ [r]) = true.
Proof.
  revert lo; induction t as [|r' t IH]; intros lo H Hr Hlo; simpl in *.
  - replace (lo <? id r) with true by (symmetry; apply Z.ltb_lt; lia).
    now rewrite Z.leb_refl.
  - apply andb_true_iff in H as [H Ht]. apply andb_true_iff in H as [H1 H2].
    apply Z.ltb_lt in H1. apply Z.leb_le in H2.
    rewrite IH; [|exact Ht|lia|lia].
    replace (lo <? id r') with true by (symmetry; apply Z.ltb_lt; lia).
    replace (id r' <=? id r) with true by (symmetry; apply Z.leb_le; lia).
    reflexivity.
Qed.

Lemma ids_between_filter f lo hi t :
  ids_between lo hi t = true -> ids_between lo hi (filter f t) = true.
Proof.
  revert lo; induction t as [|r t IH]; intros lo H; simpl in *.
  - reflexivity.
  - apply andb_true_iff in H as [H Ht]. apply andb_true_iff in H as [H1 H2].
    destruct (f r); simpl.
    + now rewrite H1, H2, (IH _ Ht).
    + apply Z.ltb_lt in H1.
      apply (ids_between_weaken (id r) lo hi hi); [lia|lia|]. now apply IH.
Qed.

(** Rows stored after a row carry larger ids. *)
Lemma ids_after_split lo hi l1 r l2 :
  ids_between lo hi (l1 ++ r :: l2) = true ->
  Forall (fun r' => id r < id r') l2.
Proof.
  revert lo; induction l1 as [|a l1 IH]; intros lo H; simpl in H;
    apply andb_true_iff in H as [_ Ht].
  - apply ids_between_Forall in Ht.
    eapply Forall_impl; [|exact Ht]. simpl; intros; lia.
  - exact (IH _ Ht).
Qed.

(** Deleting by the id of a row of a well-formed table removes that row
    and nothing else. *)
Lemma filter_id_split lo hi l1 r l2 :
  ids_between lo hi (l1 ++ r :: l2) = true ->
  filter (fun r' => negb (id r' =? id r)) (l1 ++ r :: l2) = l1 ++ l2 /\
  filter (fun r' => id r' =? id r) (l1 ++ r :: l2) = [r].
Proof.
  revert lo; induction l1 as [|a l1 IH]; intros lo H; simpl in *.
  - apply andb_true_iff in H as [_ Ht].
    apply ids_between_Forall in Ht.
    rewrite Z.eqb_refl; simpl.
    assert (Hne : Forall (fun r' => (id r' =? id r) = false) l2).
    { eapply Forall_impl; [|exact Ht]. simpl; intros. apply Z.eqb_neq; lia. }
    clear Ht. split.
    + induction Hne as [|b l2 Hb _ IH]; simpl; [reflexivity|].
      now rewrite Hb, IH.
    + f_equal. induction Hne as [|b l2 Hb _ IH]; simpl; [reflexivity|].
      now rewrite Hb.
  - apply andb_true_iff in H as [_ Ht].
    pose proof (ids_between_Forall _ _ _ Ht) as Hall.
    apply Forall_forall with (x := r) in Hall; [|apply in_elt].
    replace (id a =? id r) with false by (symmetry; apply Z.eqb_neq; lia).
    simpl. destruct (IH _ Ht) as [E1 E2]. now rewrite E1, E2.
Qed.

Lemma select_last_id_None uid t :
  select_last_id uid t = None <-> Forall (fun r => user_id r <> uid) t.
Proof.
  induction t as [|r t IH]; simpl.
  - split; [constructor|reflexivity].
  - destruct (Z.eqb_spec (user_id r) uid) as [E|E].
    + split.
      * destruct (select_last_id uid t); discriminate.
      * intros H. inversion H; subst. contradiction.
    + rewrite IH. split.
      * intros H; constructor; assumption.
      * intros H; inversion H; assumption.
Qed.

Lemma select_last_id_Some uid t i :
  select_last_id uid t = Some i ->
  exists r, id r = i /\ latest_entry_of uid t r.
Proof.
  revert i; induction t as [|r t IH]; intros i H; simpl in H; [discriminate|].
  destruct (Z.eqb_spec (user_id r) uid) as [E|E].
  - destruct (select_last_id uid t) as [j|] eqn:Ej.
    + injection H as <-. destruct (IH j eq_refl) as (r0 & Hid & Hin & Hu & Hmax).
      destruct (Z.max_spec (id r) j) as [[Hlt ->]|[Hle ->]].
      * exists r0. split; [exact Hid|]. split; [now right|]. split; [exact Hu|].
        intros r' [<-|Hr'] Hu'; [lia|now apply Hmax].
      * exists r. split; [reflexivity|]. split; [now left|]. split; [exact E|].
        intros r' [<-|Hr'] Hu'; [lia|]. specialize (Hmax r' Hr' Hu'). lia.
    + injection H as <-. apply select_last_id_None in Ej.
      exists r. split; [reflexivity|]. split; [now left|]. split; [exact E|].
      intros r' [<-|Hr'] Hu'; [lia|].
      apply Forall_forall with (x := r') in Ej; [contradiction|exact Hr'].
  - destruct (IH i H) as (r0 & Hid & Hin & Hu & Hmax).
    exists r0. split; [exact Hid|]. split; [now right|]. split; [exact Hu|].
    intros r' [<-|Hr'] Hu'; [contradiction|now apply Hmax].
Qed.

(** The row just appended carries the largest id, so the subquery of
    [remove_participant] finds it. *)
Lemma select_last_id_snoc uid name i t :
  Forall (fun r => id r < i) t ->
  select_last_id uid (t ++ [mkRow i uid name]) = Some i.
Proof.
  induction 1 as [|r t Hr _ IH]; simpl.
  - now rewrite Z.eqb_refl.
  - rewrite IH. destruct (user_id r =? uid); [|reflexivity].
    f_equal. lia.
Qed.

Lemma filter_id_snoc r t :
  Forall (fun r' => id r' < id r) t ->
  filter (fun r' => negb (id r' =? id r)) (t ++ [r]) = t /\
  filter (fun r' => id r' =? id r) (t ++ [r]) = [r].
Proof.
  induction 1 as [|a t Ha _ [IH1 IH2]]; simpl.
  - now rewrite Z.eqb_refl.
  - replace (id a =? id r) with false by (symmetry; apply Z.eqb_neq; lia).
    simpl. now rewrite IH1, IH2.
Qed.

Lemma sort_by_id_sorted lo hi t :
  ids_between lo hi t = true -> sort_by_id t = t.
Proof.
  revert lo; induction t as [|r t IH]; intros lo H; simpl in *; [reflexivity|].
  apply andb_true_iff in H as [_ Ht]. rewrite (IH _ Ht).
  destruct t as [|r' t']; simpl in *; [reflexivity|].
  apply andb_true_iff in Ht as [Ht _]. apply andb_true_iff in Ht as [H1 _].
  apply Z.ltb_lt in H1.
  replace (id r <=? id r') with true by (symmetry; apply Z.leb_le; lia).
  reflexivity.
Qed.

(** * The operations keep the table well formed *)

Lemma well_formed_inv d :
  well_formed d -> 0 <= seq d /\ ids_between 0 (seq d) (rows d) = true.
Proof.
  unfold well_formed. intros H. apply andb_true_iff in H as [H1 H2].
  apply Z.leb_le in H1. now split.
Qed.

Lemma well_formed_intro d :
  0 <= seq d -> ids_between 0 (seq d) (rows d) = true -> well_formed d.
Proof.
  unfold well_formed. intros H1 H2. apply andb_true_iff.
  split; [now apply Z.leb_le|exact H2].
Qed.

Lemma well_formed_ids_le_seq d :
  well_formed d -> Forall (fun r => id r < seq d + 1) (rows d).
Proof.
  intros H. apply well_formed_inv in H as [_ H].
  apply ids_between_Forall in H.
  eapply Forall_impl; [|exact H]. simpl; intros; lia.
Qed.

Lemma setup_database_well_formed : well_formed setup_database.
Proof. reflexivity. Qed.

Lemma insert_row_well_formed uid name d :
  well_formed d -> well_formed (fst (insert_row uid name d)).
Proof.
  intros H. apply well_formed_inv in H as [H0 H].
  apply well_formed_intro; simpl; [lia|].
  apply (ids_between_snoc 0 (seq d) (rows d) (mkRow (seq d + 1) uid name));
    simpl; [exact H|lia|lia].
Qed.

Lemma add_participant_well_formed cap uid name d :
  well_formed d -> well_formed (fst (add_participant cap uid name d)).
Proof.
  intros H. unfold add_participant.
  destruct (cap <=? get_participants_count d)%nat; [exact H|].
  now apply insert_row_well_formed.
Qed.

Lemma remove_participant_well_formed uid d :
  well_formed d -> well_formed (fst (remove_participant uid d)).
Proof.
  intros H. unfold remove_participant, delete_where_id.
  destruct (select_last_id uid (rows d)) as [i|]; simpl; [|exact H].
  apply well_formed_inv in H as [H0 H].
  apply well_formed_intro; simpl; [exact H0|].
  now apply ids_between_filter.
Qed.

Lemma delete_all_well_formed d : well_formed d -> well_formed (delete_all d).
Proof.
  intros H. apply well_formed_inv in H as [H0 _].
  apply well_formed_intro; simpl; [exact H0|reflexivity].
Qed.

Lemma step_well_formed cap d o : well_formed d -> well_formed (step cap d o).
Proof.
  destruct o; simpl.
  - apply add_participant_well_formed.
  - apply remove_participant_well_formed.
  - apply delete_all_well_formed.
Qed.

Lemma fold_step_well_formed cap ops d :
  well_formed d -> well_formed (fold_left (step cap) ops d).
Proof.
  revert d; induction ops as [|o ops IH]; intros d H; simpl; [exact H|].
  apply IH. now apply step_well_formed.
Qed.

(** Every table the bot can reach is well formed. *)
Lemma run_well_formed cap ops : well_formed (run cap ops).
Proof. apply fold_step_well_formed, setup_database_well_formed. Qed.

(** * Add *)

Lemma add_participant_full cap uid name d :
  (cap <= get_participants_count d)%nat ->
  add_participant cap uid name d = (d, false).
Proof.
  intros H. unfold add_participant.
  apply Nat.leb_le in H. now rewrite H.
Qed.

Lemma add_participant_room cap uid name d :
  (get_participants_count d < cap)%nat ->
  add_participant cap uid name d =
  ({| rows := rows d ++ [mkRow (seq d + 1) uid name]; seq := seq d + 1 |}, true).
Proof.
  intros H. unfold add_participant.
  apply Nat.leb_gt in H. now rewrite H.
Qed.

Lemma step_count cap d o :
  (get_participants_count d <= cap)%nat ->
  (get_participants_count (step cap d o) <= cap)%nat.
Proof.
  intros H. destruct o as [uid name|uid|]; simpl.
  - destruct (Nat.le_gt_cases cap (get_participants_count d)) as [Hf|Hr].
    + now rewrite add_participant_full.
    + rewrite add_participant_room by exact Hr.
      unfold get_participants_count, select_count in *; simpl.
      rewrite length_app; simpl. lia.
  - unfold remove_participant, delete_where_id.
    destruct (select_last_id uid (rows d)) as [i|]; simpl; [|exact H].
    unfold get_participants_count, select_count in *; simpl.
    etransitivity; [apply filter_length_le|exact H].
  - unfold get_participants_count, select_count; simpl. lia.
Qed.

(** C1. Starting from the empty roster that [setup_database] creates, after
    every sequence of Add and RemoveOne operations (ClearAll may be mixed
    in as well) the number of rows that Count() reports is at most
    MAX_PARTICIPANTS. *)
Theorem count_never_exceeds_max (MAX_PARTICIPANTS : nat) (ops : list op) :
  (get_participants_count (run MAX_PARTICIPANTS ops) <= MAX_PARTICIPANTS)%nat.
Proof.
  unfold run.
  assert (H0 : (get_participants_count setup_database <= MAX_PARTICIPANTS)%nat)
    by (unfold get_participants_count, select_count; simpl; lia).
  revert H0. generalize setup_database.
  induction ops as [|o ops IH]; intros d H; simpl; [exact H|].
  apply IH. now apply step_count.
Qed.

(** C2. On a well-formed roster, Add(user_id, display_name) returns false
    when Count() >= MAX_PARTICIPANTS; otherwise it returns true and the
    roster is the old one followed by exactly one entry, which carries that
    user_id and display_name and an id no older entry has. *)
Theorem add_participant_spec (MAX_PARTICIPANTS : nat) (uid : Z) (name : string)
    (d : db) :
  well_formed d ->
  ((MAX_PARTICIPANTS <= get_participants_count d)%nat ->
     snd (add_participant MAX_PARTICIPANTS uid name d) = false) /\
  ((get_participants_count d < MAX_PARTICIPANTS)%nat ->
     exists r,
       user_id r = uid /\ username r = name /\
       (forall r', In r' (rows d) -> id r' < id r) /\
       rows (fst (add_participant MAX_PARTICIPANTS uid name d)) = rows d ++ [r] /\
       get_participants_count (fst (add_participant MAX_PARTICIPANTS uid name d))
         = S (get_participants_count d) /\
       snd (add_participant MAX_PARTICIPANTS uid name d) = true).
Proof.
  intros Hwf. split; intros H.
  - now rewrite add_participant_full.
  - rewrite add_participant_room by exact H.
    exists (mkRow (seq d + 1) uid name); simpl.
    repeat split.
    + intros r' Hr'. pose proof (well_formed_ids_le_seq d Hwf) as Hall.
      now apply Forall_forall with (x := r') in Hall.
    + unfold get_participants_count, select_count; simpl.
      rewrite length_app; simpl. lia.
Qed.

(** A full roster of capacity 2 and a roster of capacity 3 with room. *)
Lemma add_participant_spec_witness :
  snd (add_participant 2 30 "C" roster_AB) = false /\
  exists r,
    user_id r = 30 /\ username r = "C"%string /\
    (forall r', In r' (rows roster_AB) -> id r' < id r) /\
    rows (fst (add_participant 3 30 "C" roster_AB)) = rows roster_AB ++ [r] /\
    get_participants_count (fst (add_participant 3 30 "C" roster_AB))
      = S (get_participants_count roster_AB) /\
    snd (add_participant 3 30 "C" roster_AB) = true.
Proof.
  split.
  - apply (proj1 (add_participant_spec 2 30 "C" roster_AB eq_refl)).
    unfold get_participants_count, select_count; simpl; lia.
  - apply (proj2 (add_participant_spec 3 30 "C" roster_AB eq_refl)).
    unfold get_participants_count, select_count; simpl; lia.
Defined.

(** C5. When Count() >= MAX_PARTICIPANTS, Add returns false and the table
    it leaves is the table it found: same rows, same ids, same order, same
    AUTOINCREMENT counter. *)
Theorem add_beyond_capacity_unchanged (MAX_PARTICIPANTS : nat) (uid : Z)
    (name : string) (d : db) :
  (MAX_PARTICIPANTS <= get_participants_count d)%nat ->
  add_participant MAX_PARTICIPANTS uid name d = (d, false).
Proof. apply add_participant_full. Qed.

Lemma add_beyond_capacity_unchanged_witness :
  add_participant 2 30 "C" roster_AB = (roster_AB, false).
Proof.
  apply (add_beyond_capacity_unchanged 2 30 "C" roster_AB).
  unfold get_participants_count, select_count; simpl; lia.
Defined.

(** * RemoveOne *)

Lemma remove_participant_absent uid d :
  (forall r, In r (rows d) -> user_id r <> uid) ->
  remove_participant uid d = (d, false).
Proof.
  intros H. unfold remove_participant.
  assert (E : select_last_id uid (rows d) = None)
    by (apply select_last_id_None, Forall_forall; exact H).
  now rewrite E.
Qed.

Lemma remove_participant_present uid d r :
  well_formed d -> In r (rows d) -> user_id r = uid ->
  exists l1 r0 l2,
    rows d = l1 ++ r0 :: l2 /\ latest_entry_of uid (rows d) r0 /\
    remove_participant uid d = ({| rows := l1 ++ l2; seq := seq d |}, true).
Proof.
  intros Hwf Hin Hu. apply well_formed_inv in Hwf as [_ Hwf].
  destruct (select_last_id uid (rows d)) as [i|] eqn:E.
  - destruct (select_last_id_Some _ _ _ E) as (r0 & Hid & Hlatest).
    destruct (in_split r0 (rows d) (proj1 Hlatest)) as (l1 & l2 & Hsplit).
    exists l1, r0, l2. split; [exact Hsplit|]. split; [exact Hlatest|].
    unfold remove_participant, delete_where_id. rewrite E, <- Hid.
    rewrite Hsplit in Hwf. destruct (filter_id_split _ _ _ _ _ Hwf) as [F1 F2].
    rewrite Hsplit, F1, F2. reflexivity.
  - apply select_last_id_None in E.
    apply Forall_forall with (x := r) in E; [contradiction|exact Hin].
Qed.

(** C3. On a well-formed roster: when the user has an entry, RemoveOne
    returns true and takes out exactly one row, the user's entry whose id
    is the highest among the user's entries, which is the user's entry
    inserted last, every other row staying where it was; when the user has
    no entry, RemoveOne returns false. *)
Theorem remove_participant_spec (uid : Z) (d : db) :
  well_formed d ->
  ((exists r, In r (rows d) /\ user_id r = uid) ->
     exists l1 r l2,
       rows d = l1 ++ r :: l2 /\ latest_entry_of uid (rows d) r /\
       (forall r', In r' l2 -> user_id r' <> uid) /\
       remove_participant uid d = ({| rows := l1 ++ l2; seq := seq d |}, true)) /\
  ((forall r, In r (rows d) -> user_id r <> uid) ->
     snd (remove_participant uid d) = false).
Proof.
  intros Hwf. split.
  - intros (r & Hin & Hu).
    destruct (remove_participant_present uid d r Hwf Hin Hu)
      as (l1 & r0 & l2 & Hsplit & Hlatest & Hrm).
    exists l1, r0, l2. repeat split; try assumption; try apply Hlatest.
    intros r' Hr' Hu'.
    apply well_formed_inv in Hwf as [_ Hwf]. rewrite Hsplit in Hwf.
    pose proof (ids_after_split _ _ _ _ _ Hwf) as Hafter.
    apply Forall_forall with (x := r') in Hafter; [|exact Hr'].
    destruct Hlatest as (_ & _ & Hmax).
    assert (id r' <= id r0); [|lia].
    apply Hmax; [|exact Hu']. rewrite Hsplit. apply in_or_app. right. now right.
  - intros H. now rewrite remove_participant_absent.
Qed.

(** User 10 has two entries, user 30 none. *)
Lemma remove_participant_spec_witness :
  (exists l1 r l2,
     rows roster_ABA = l1 ++ r :: l2 /\ latest_entry_of 10 (rows roster_ABA) r /\
     (forall r', In r' l2 -> user_id r' <> 10) /\
     remove_participant 10 roster_ABA
       = ({| rows := l1 ++ l2; seq := seq roster_ABA |}, true)) /\
  snd (remove_participant 30 roster_ABA) = false.
Proof.
  split.
  - apply (proj1 (remove_participant_spec 10 roster_ABA eq_refl)).
    exists (mkRow 1 10 "A"). split; [now left|reflexivity].
  - apply (proj2 (remove_participant_spec 30 roster_ABA eq_refl)).
    intros r [<-|[<-|[<-|[]]]]; simpl; lia.
Defined.

(** C6. When the user has no entry, RemoveOne returns false and the table
    it leaves is the table it found. *)
Theorem remove_absent_unchanged (uid : Z) (d : db) :
  (forall r, In r (rows d) -> user_id r <> uid) ->
  remove_participant uid d = (d, false).
Proof. apply remove_participant_absent. Qed.

Lemma remove_absent_unchanged_witness :
  remove_participant 30 roster_AB = (roster_AB, false).
Proof.
  apply (remove_absent_unchanged 30 roster_AB).
  intros r [<-|[<-|[]]]; simpl; lia.
Defined.

(** C10. On a well-formed roster, when Add(user_id, display_name) returns
    true, RemoveOne(user_id) right after it returns true and the rows of the
    roster are again those before the Add: same entries, same ids, same
    order. *)
Theorem add_then_remove_roundtrip (MAX_PARTICIPANTS : nat) (uid : Z)
    (name : string) (d : db) :
  well_formed d ->
  snd (add_participant MAX_PARTICIPANTS uid name d) = true ->
  snd (remove_participant uid (fst (add_participant MAX_PARTICIPANTS uid name d)))
    = true /\
  rows (fst (remove_participant uid (fst (add_participant MAX_PARTICIPANTS uid name d))))
    = rows d.
Proof.
  intros Hwf Hadd.
  destruct (Nat.le_gt_cases MAX_PARTICIPANTS (get_participants_count d)) as [Hf|Hr].
  - rewrite add_participant_full in Hadd by exact Hf. discriminate.
  - rewrite add_participant_room by exact Hr. simpl.
    pose proof (well_formed_ids_le_seq d Hwf) as Hall.
    unfold remove_participant, delete_where_id; simpl.
    rewrite (select_last_id_snoc uid name (seq d + 1) (rows d) Hall).
    destruct (filter_id_snoc (mkRow (seq d + 1) uid name) (rows d) Hall) as [F1 F2].
    simpl in F1, F2. rewrite F1, F2. split; reflexivity.
Qed.

Lemma add_then_remove_roundtrip_witness :
  snd (remove_participant 10 (fst (add_participant 4 10 "A" roster_ABA))) = true /\
  rows (fst (remove_participant 10 (fst (add_participant 4 10 "A" roster_ABA))))
    = rows roster_ABA.
Proof.
  apply (add_then_remove_roundtrip 4 10 "A" roster_ABA); reflexivity.
Defined.

(** What the round trip does not give back is the AUTOINCREMENT counter:
    the id of the removed row is never handed out again. *)
Remark add_then_remove_counter cap uid name d :
  snd (add_participant cap uid name d) = true ->
  seq (fst (remove_participant uid (fst (add_participant cap uid name d))))
    = seq d + 1.
Proof.
  intros Hadd.
  destruct (Nat.le_gt_cases cap (get_participants_count d)) as [Hf|Hr].
  - rewrite add_participant_full in Hadd by exact Hf. discriminate.
  - rewrite add_participant_room by exact Hr.
    unfold remove_participant, delete_where_id; simpl.
    destruct (select_last_id uid _); reflexivity.
Qed.

(** * ClearAll, ListAll and Count *)

(** C7. After ClearAll, whether it runs as the scheduled [clear_list] or as
    the [clear_command] of a chat's creator or administrator, no entry is
    left: Count() is 0 and ListAll() is the empty sequence. *)
Theorem clear_all_empties (RESPONSES : string -> string) (d : db) :
  get_participants_count (delete_all d) = 0%nat /\
  get_all_participants (delete_all d) = [] /\
  fst (clear_list RESPONSES d) = delete_all d /\
  forall chat : Z,
    fst (clear_command RESPONSES (Some chat) "creator" d) = delete_all d /\
    fst (clear_command RESPONSES (Some chat) "administrator" d) = delete_all d.
Proof. repeat split. Qed.

(** C9. Count() is the length of ListAll(): every row counts once and is
    listed once, whoever it belongs to. *)
Theorem count_is_length_of_list (d : db) :
  get_participants_count d = length (get_all_participants d).
Proof.
  unfold get_participants_count, get_all_participants, select_count,
    select_usernames.
  now rewrite length_map.
Qed.

(** The table refines the specification's roster: one step of the code on
    a well-formed table is one step of the roster on its entries. *)
Lemma spec_remove_one_absent uid l :
  existsb (fun e' => fst e' =? uid) l = false -> spec_remove_one uid l = l.
Proof.
  induction l as [|e l IH]; simpl; [reflexivity|].
  intros H. apply orb_false_iff in H as [He Hl].
  now rewrite Hl, He.
Qed.

Lemma select_last_id_existsb uid t :
  existsb (fun e' => fst e' =? uid) (map entry_of t)
  = match select_last_id uid t with Some _ => true | None => false end.
Proof.
  induction t as [|r t IH]; simpl; [reflexivity|].
  destruct (user_id r =? uid); simpl.
  - destruct (select_last_id uid t); reflexivity.
  - exact IH.
Qed.

Lemma delete_latest_refines lo hi uid t :
  ids_between lo hi t = true ->
  map entry_of
    (match select_last_id uid t with
     | Some i => filter (fun r => negb (id r =? i)) t
     | None => t
     end)
  = spec_remove_one uid (map entry_of t).
Proof.
  revert lo; induction t as [|r t IH]; intros lo H; [reflexivity|].
  pose proof H as Hrt.
  simpl in H. apply andb_true_iff in H as [_ Ht].
  specialize (IH _ Ht).
  pose proof (ids_between_Forall _ _ _ Ht) as Hall.
  cbn [select_last_id map spec_remove_one].
  rewrite select_last_id_existsb.
  destruct (select_last_id uid t) as [j|] eqn:Ej.
  - (* the user has a later entry: the head stays *)
    destruct (select_last_id_Some _ _ _ Ej) as (r0 & Hid & Hin & _).
    apply Forall_forall with (x := r0) in Hall; [|exact Hin].
    assert (Hne : (id r =? j) = false) by (apply Z.eqb_neq; lia).
    destruct (user_id r =? uid).
    + replace (Z.max (id r) j) with j by lia.
      cbn [filter]. rewrite Hne. cbn [negb map]. now rewrite IH.
    + cbn [filter]. rewrite Hne. cbn [negb map]. now rewrite IH.
  - unfold entry_of at 2; cbn [fst].
    destruct (user_id r =? uid).
    + (* the head is the user's only entry *)
      destruct (filter_id_split lo hi [] r t Hrt) as [F _].
      cbn [app] in F. now rewrite F.
    + reflexivity.
Qed.

Lemma step_refines cap d o :
  well_formed d ->
  map entry_of (rows (step cap d o)) = spec_step cap (map entry_of (rows d)) o.
Proof.
  intros Hwf. destruct o as [uid name|uid|]; simpl.
  - unfold spec_add, add_participant, get_participants_count, select_count.
    rewrite length_map.
    destruct (cap <=? length (rows d))%nat; simpl; [reflexivity|].
    now rewrite map_app.
  - apply well_formed_inv in Hwf as [_ Hwf].
    rewrite <- (delete_latest_refines 0 (seq d) uid (rows d) Hwf).
    unfold remove_participant, delete_where_id.
    destruct (select_last_id uid (rows d)); reflexivity.
  - reflexivity.
Qed.

Lemma fold_step_refines cap ops d :
  well_formed d ->
  map entry_of (rows (fold_left (step cap) ops d))
  = fold_left (spec_step cap) ops (map entry_of (rows d)).
Proof.
  revert d; induction ops as [|o ops IH]; intros d Hwf; simpl; [reflexivity|].
  rewrite IH by now apply step_well_formed.
  now rewrite step_refines.
Qed.

Lemma run_refines cap ops :
  map entry_of (rows (run cap ops)) = spec_run cap ops.
Proof.
  unfold run, spec_run.
  now rewrite fold_step_refines by apply setup_database_well_formed.
Qed.

(** C8. In every table the bot can reach, ListAll() gives the display_name
    of each row, once per row, and the rows come by ascending id, which is
    the order in which the surviving entries were inserted. *)
Theorem list_all_in_insertion_order (MAX_PARTICIPANTS : nat) (ops : list op) :
  get_all_participants (run MAX_PARTICIPANTS ops)
    = map username (rows (run MAX_PARTICIPANTS ops)) /\
  get_all_participants (run MAX_PARTICIPANTS ops)
    = map username (sort_by_id (rows (run MAX_PARTICIPANTS ops))) /\
  get_all_participants (run MAX_PARTICIPANTS ops)
    = map snd (spec_run MAX_PARTICIPANTS ops).
Proof.
  split; [reflexivity|]. split.
  - destruct (well_formed_inv _ (run_well_formed MAX_PARTICIPANTS ops)) as [_ H].
    now rewrite (sort_by_id_sorted _ _ _ H).
  - rewrite <- run_refines, map_map. reflexivity.
Qed.

(** The scenario of the specification: capacity 2. *)
Example scenario_capacity_2 :
  let d1 := add_participant 2 1 "A" setup_database in
  let d2 := add_participant 2 2 "B" (fst d1) in
  let d3 := add_participant 2 3 "C" (fst d2) in
  let d4 := remove_participant 1 (fst d3) in
  snd d1 = true /\ get_participants_count (fst d1) = 1%nat /\
  snd d2 = true /\ get_participants_count (fst d2) = 2%nat /\
  snd d3 = false /\ get_participants_count (fst d3) = 2%nat /\
  snd d4 = true /\ get_participants_count (fst d4) = 1%nat /\
  get_all_participants (fst d4) = ["B"%string].
Proof. repeat split. Qed.

(** * Rendering the roster *)

Lemma mem_In x l : mem x l = true <-> In x l.
Proof.
  unfold mem. rewrite existsb_exists. split.
  - intros (y & Hy & E). apply String.eqb_eq in E. now subst.
  - intros H. exists x. split; [exact H|apply String.eqb_refl].
Qed.

Lemma mem_not_In x l : mem x l = false <-> ~ In x l.
Proof.
  rewrite <- mem_In. destruct (mem x l); split; congruence.
Qed.

Lemma first_occurrences_In n l : In n (first_occurrences l) <-> In n l.
Proof.
  induction l as [|a l IH]; simpl; [reflexivity|].
  rewrite filter_In, IH. split.
  - intros [H|[H _]]; [now left|now right].
  - intros [H|H]; [now left|].
    destruct (String.eqb_spec a n) as [E|E]; [now left|right].
    split; [exact H|reflexivity].
Qed.

Lemma first_occurrences_NoDup l : NoDup (first_occurrences l).
Proof.
  induction l as [|a l IH]; simpl; constructor.
  - rewrite filter_In. intros [_ H]. now rewrite String.eqb_refl in H.
  - now apply NoDup_filter.
Qed.

Lemma first_occurrences_snoc l x :
  first_occurrences (l ++ [x])
  = if mem x l then first_occurrences l else first_occurrences l ++ [x].
Proof.
  induction l as [|a l IH]; [reflexivity|].
  cbn [app first_occurrences]. rewrite IH. unfold mem in *. cbn [existsb].
  destruct (existsb (String.eqb x) l).
  - now rewrite orb_true_r.
  - rewrite orb_false_r, filter_app. cbn [filter].
    rewrite (String.eqb_sym a x).
    destruct (String.eqb x a); cbn [negb]; [now rewrite app_nil_r|reflexivity].
Qed.

Lemma dict_get_tabulate g K x :
  dict_get x 0%nat (tabulate g K) = if mem x K then g x else 0%nat.
Proof.
  unfold mem. induction K as [|n K IH]; [reflexivity|].
  cbn [tabulate map dict_get existsb]. fold (tabulate g K).
  rewrite (String.eqb_sym x n).
  destruct (String.eqb_spec n x) as [->|_]; [reflexivity|exact IH].
Qed.

Lemma dict_set_tabulate_old g K x v :
  NoDup K -> In x K ->
  dict_set x v (tabulate g K)
  = tabulate (fun n => if String.eqb n x then v else g n) K.
Proof.
  induction 1 as [|n K Hn HK IH]; intros Hx; [contradiction|].
  cbn [tabulate map dict_set]. fold (tabulate g K).
  destruct (String.eqb_spec n x) as [->|Hne].
  - f_equal. apply map_ext_in. intros n' Hn'.
    destruct (String.eqb_spec n' x) as [->|_]; [contradiction|reflexivity].
  - f_equal. apply IH. destruct Hx as [Hx|Hx]; [contradiction|exact Hx].
Qed.

Lemma dict_set_tabulate_new g K x v :
  ~ In x K -> dict_set x v (tabulate g K) = tabulate g K ++ [(x, v)].
Proof.
  induction K as [|n K IH]; intros Hx; [reflexivity|].
  cbn [tabulate map dict_set app]. fold (tabulate g K).
  destruct (String.eqb_spec n x) as [->|_].
  - exfalso. apply Hx. now left.
  - f_equal. apply IH. intros H. apply Hx. now right.
Qed.

Lemma count_names_snoc l x :
  count_names (l ++ [x])
  = dict_set x (dict_get x 0%nat (count_names l) + 1)%nat (count_names l).
Proof. unfold count_names. now rewrite fold_left_app. Qed.

Lemma occurrences_snoc n l x :
  occurrences n (l ++ [x])
  = (occurrences n l + if String.eqb n x then 1 else 0)%nat.
Proof.
  unfold occurrences. rewrite count_occ_app. f_equal. simpl.
  destruct (string_dec x n) as [->|Hne].
  - now rewrite String.eqb_refl.
  - destruct (String.eqb_spec n x) as [->|_]; [contradiction|reflexivity].
Qed.

(** The dict that the loop of [format_participants_list] builds: the
    distinct names in the order of their first occurrence, each with the
    number of its occurrences. *)
Lemma count_names_spec l :
  count_names l = tabulate (fun n => occurrences n l) (first_occurrences l).
Proof.
  induction l as [|x l IH] using rev_ind; [reflexivity|].
  rewrite count_names_snoc, IH, dict_get_tabulate, first_occurrences_snoc.
  destruct (mem x l) eqn:Hx.
  - assert (Hin : In x (first_occurrences l))
      by now apply first_occurrences_In, mem_In.
    pose proof Hin as Hm. apply mem_In in Hm. rewrite Hm.
    rewrite dict_set_tabulate_old by (apply first_occurrences_NoDup || exact Hin).
    apply map_ext. intros n. rewrite occurrences_snoc.
    destruct (String.eqb_spec n x) as [->|_]; [reflexivity|].
    now rewrite Nat.add_0_r.
  - assert (Hnin : ~ In x (first_occurrences l)).
    { rewrite first_occurrences_In. now apply mem_not_In. }
    pose proof Hnin as Hm. apply mem_not_In in Hm. rewrite Hm.
    rewrite dict_set_tabulate_new by exact Hnin.
    unfold tabulate. rewrite map_app. cbn [map]. f_equal.
    + apply map_ext_in. intros n Hn. rewrite occurrences_snoc.
      destruct (String.eqb_spec n x) as [->|_]; [contradiction|].
      now rewrite Nat.add_0_r.
    + rewrite occurrences_snoc, String.eqb_refl.
      apply mem_not_In in Hx.
      unfold occurrences. apply (count_occ_not_In string_dec) in Hx.
      now rewrite Hx.
Qed.

Lemma format_entry_line l n :
  In n l -> format_entry (n, occurrences n l) = roster_line n (occurrences n l).
Proof.
  intros H. apply (count_occ_In string_dec) in H. fold (occurrences n l) in H.
  unfold format_entry, roster_line.
  destruct (occurrences n l) as [|[|k]]; [lia|reflexivity|reflexivity].
Qed.

Lemma string_app_assoc (a b c : string) :
  ((a ++ b) ++ c = a ++ b ++ c)%string.
Proof. induction a as [|x a IH]; simpl; [reflexivity|now rewrite IH]. Qed.

Lemma format_participants_list_nonempty cap R p ps :
  format_participants_list cap R (p :: ps)
  = (roster_header (length (p :: ps)) cap ++ newline
     ++ String.concat newline
          (map (fun n => roster_line n (occurrences n (p :: ps)))
               (first_occurrences (p :: ps))))%string.
Proof.
  unfold format_participants_list. rewrite count_names_spec.
  unfold tabulate. rewrite map_map.
  rewrite (map_ext_in _ (fun n => roster_line n (occurrences n (p :: ps)))).
  - unfold roster_header. now rewrite !string_app_assoc.
  - intros n Hn. apply format_entry_line. now apply first_occurrences_In.
Qed.

(** Two entries named A, held by two users. *)
Example render_two_A :
  lines (format_participants_list 2 (fun _ => ""%string)
           (get_all_participants
              {| rows := [mkRow 1 10 "A"; mkRow 2 20 "A"]; seq := 2 |}))
  = ["Участники (2/2):"; "👤 A (x2)"]%string.
Proof. reflexivity. Qed.

(** C4, as the claim words it, fails: the roster of two entries named A
    has no line that reads A (x2); the line of a name starts with the
    sign that [format_participants_list] puts before every name. *)
Lemma render_two_A_no_bare_line :
  ~ In "A (x2)"%string
      (lines (format_participants_list 2 (fun _ => ""%string)
                (get_all_participants
                   {| rows := [mkRow 1 10 "A"; mkRow 2 20 "A"]; seq := 2 |}))).
Proof. vm_compute. intros [H|[H|[]]]; discriminate H. Qed.

(** C4, amended. The empty roster renders as the fixed text
    RESPONSES['list_empty'].  A non-empty roster renders as the header
    "Участники (count/MAX_PARTICIPANTS):" followed by one line for each
    distinct display_name, in the order of first occurrence, the lines
    separated by line feeds; the line of a name is "👤 name" when the name
    occurs once and "👤 name (xN)" when it occurs N > 1 times.  Two entries
    named A, whoever holds them, give the single name line "👤 A (x2)". *)
Theorem format_participants_list_spec (MAX_PARTICIPANTS : nat)
    (RESPONSES : string -> string) :
  format_participants_list MAX_PARTICIPANTS RESPONSES []
    = RESPONSES "list_empty"%string /\
  (forall (p : string) (ps : list string),
     format_participants_list MAX_PARTICIPANTS RESPONSES (p :: ps)
     = (roster_header (length (p :: ps)) MAX_PARTICIPANTS ++ newline
        ++ String.concat newline
             (map (fun n => roster_line n (occurrences n (p :: ps)))
                  (first_occurrences (p :: ps))))%string) /\
  (forall (i1 u1 i2 u2 s : Z),
     format_participants_list MAX_PARTICIPANTS RESPONSES
       (get_all_participants
          {| rows := [mkRow i1 u1 "A"; mkRow i2 u2 "A"]; seq := s |})
     = (roster_header 2 MAX_PARTICIPANTS ++ newline ++ "👤 A (x2)")%string).
Proof.
  split; [reflexivity|]. split.
  - intros p ps. apply format_participants_list_nonempty.
  - intros i1 u1 i2 u2 s. cbn [get_all_participants select_usernames rows map username].
    now rewrite format_participants_list_nonempty.
Qed.

(** [str] on small numbers. *)
Example str_of_nat_samples :
  str_of_nat 0 = "0"%string /\ str_of_nat 7 = "7"%string /\
  str_of_nat 10 = "10"%string /\ str_of_nat 205 = "205"%string.
Proof. repeat split. Qed.

(** * The audit log *)

Lemma log_call_held f c l :
  AuditLog.held_list f = Some l ->
  AuditLog.held_list (AuditLog.log_call f c)
  = Some (l ++ [AuditLog.entry_of_call c]).
Proof.
  unfold AuditLog.log_call, AuditLog.log_command, AuditLog.entry_of_call.
  destruct f as [| | |v]; simpl; try discriminate.
  - now intros [= <-].
  - now intros [= <-].
  - destruct v; simpl; try discriminate. now intros [= <-].
Qed.

Lemma log_call_disabled f c :
  AuditLog.held_list f = None -> AuditLog.log_call f c = f.
Proof.
  unfold AuditLog.log_call, AuditLog.log_command.
  destruct f as [| | |v]; simpl; try discriminate; try reflexivity.
  destruct v; simpl; try discriminate; reflexivity.
Qed.

Lemma get_logs_held f l :
  AuditLog.held_list f = Some l -> AuditLog.get_logs f = Some (AuditLog.JArr l).
Proof.
  destruct f as [| | |v]; simpl; try discriminate; try now intros [= <-].
  destruct v; simpl; try discriminate. now intros [= <-].
Qed.

Lemma log_calls_held calls f l :
  AuditLog.held_list f = Some l ->
  AuditLog.held_list (AuditLog.log_calls calls f)
  = Some (l ++ map AuditLog.entry_of_call calls).
Proof.
  revert f l; induction calls as [|c calls IH]; intros f l H; simpl.
  - now rewrite app_nil_r.
  - unfold AuditLog.log_calls in *; simpl.
    rewrite (IH _ _ (log_call_held f c l H)), <- app_assoc. reflexivity.
Qed.

(** X1. The log is append-only.  When bot_logs.json is absent, is no JSON
    or holds a JSON list, then after any number of [log_command] calls
    [get_logs] returns the records that were there (none in the first two
    cases: a file that is no JSON is overwritten), followed by one record
    per call, in the order of the calls. *)
Theorem log_commands_append (calls : list AuditLog.call) (f : AuditLog.logfile)
    (l : list AuditLog.json) :
  AuditLog.held_list f = Some l ->
  AuditLog.get_logs (AuditLog.log_calls calls f)
  = Some (AuditLog.JArr (l ++ map AuditLog.entry_of_call calls)).
Proof.
  intros H. apply get_logs_held. now apply log_calls_held.
Qed.

Lemma log_commands_append_witness :
  AuditLog.get_logs
    (AuditLog.log_calls
       [AuditLog.mkCall "t1" 10 "A" "/start" "Started bot interaction";
        AuditLog.mkCall "t2" 10 "A" "/help" "Requested help information"]
       AuditLog.NotJson)
  = Some (AuditLog.JArr
            ([] ++ map AuditLog.entry_of_call
               [AuditLog.mkCall "t1" 10 "A" "/start" "Started bot interaction";
                AuditLog.mkCall "t2" 10 "A" "/help" "Requested help information"])).
Proof.
  apply (log_commands_append _ AuditLog.NotJson []). reflexivity.
Defined.

(** X2. When bot_logs.json holds a JSON document that is not a list, or
    cannot be read for another reason than being absent or no JSON,
    [log_command] swallows the error and never writes: after any number of
    calls the file is what it was, and no record has been kept. *)
Theorem log_commands_lost (calls : list AuditLog.call) (f : AuditLog.logfile) :
  AuditLog.held_list f = None -> AuditLog.log_calls calls f = f.
Proof.
  intros H. induction calls as [|c calls IH]; [reflexivity|].
  unfold AuditLog.log_calls in *; simpl. now rewrite (log_call_disabled f c H).
Qed.

Lemma log_commands_lost_witness :
  AuditLog.log_calls
    [AuditLog.mkCall "t1" 10 "A" "/start" "Started bot interaction"]
    (AuditLog.Holds (AuditLog.JObj [("logs"%string, AuditLog.JArr [])]))
  = AuditLog.Holds (AuditLog.JObj [("logs"%string, AuditLog.JArr [])]).
Proof.
  apply (log_commands_lost _ (AuditLog.Holds (AuditLog.JObj [("logs"%string, AuditLog.JArr [])]))).
  reflexivity.
Defined.

(** * Text messages *)

Lemma text_eqb_eq s t : Router.text_eqb s t = true <-> s = t.
Proof.
  revert t; induction s as [|c s IH]; intros [|c' t]; simpl;
    try (split; [discriminate|discriminate]); [split; reflexivity|].
  rewrite andb_true_iff, N.eqb_eq, IH. split.
  - now intros [-> ->].
  - now intros [= -> ->].
Qed.

Lemma lstrip_pad ws c s :
  forallb Router.isspace ws = true -> Router.isspace c = false ->
  Router.lstrip (ws ++ c :: s) = c :: s.
Proof.
  intros Hws Hc. induction ws as [|w ws IH]; simpl in *.
  - now rewrite Hc.
  - apply andb_true_iff in Hws as [Hw Hws]. rewrite Hw. now apply IH.
Qed.

Lemma lstrip_split s :
  exists ws, forallb Router.isspace ws = true /\ s = ws ++ Router.lstrip s.
Proof.
  induction s as [|c s (ws & Hws & Hs)]; simpl.
  - now exists [].
  - destruct (Router.isspace c) eqn:Hc.
    + exists (c :: ws). simpl. rewrite Hc, Hws. split; [reflexivity|].
      now rewrite <- Hs.
    + now exists [].
Qed.

Lemma forallb_rev (f : N -> bool) l : forallb f (rev l) = forallb f l.
Proof.
  induction l as [|x l IH]; [reflexivity|].
  simpl. rewrite forallb_app, IH. simpl. rewrite andb_true_r. apply andb_comm.
Qed.

Lemma strip_pad ws1 ws2 c :
  forallb Router.isspace ws1 = true -> forallb Router.isspace ws2 = true ->
  Router.isspace c = false ->
  Router.strip (ws1 ++ c :: ws2) = [c].
Proof.
  intros H1 H2 Hc. unfold Router.strip, Router.rstrip.
  rewrite (lstrip_pad ws1 c ws2 H1 Hc). simpl.
  rewrite (lstrip_pad (rev ws2) c []); [reflexivity| |exact Hc].
  now rewrite forallb_rev.
Qed.

Lemma strip_singleton_inv t c :
  Router.strip t = [c] ->
  exists ws1 ws2,
    forallb Router.isspace ws1 = true /\ forallb Router.isspace ws2 = true /\
    t = ws1 ++ c :: ws2.
Proof.
  unfold Router.strip, Router.rstrip. intros H.
  apply (f_equal (@rev N)) in H. rewrite rev_involutive in H. simpl in H.
  destruct (lstrip_split (rev (Router.lstrip t))) as (ws' & Hws' & E).
  rewrite H in E. apply rev_eq_app in E. simpl in E.
  destruct (lstrip_split t) as (ws & Hws & Et).
  exists ws, (rev ws'). split; [exact Hws|]. split; [now rewrite forallb_rev|].
  now rewrite <- E.
Qed.

(** On a text that is not empty the handler looks at the stripped text only. *)
Lemma handle_message_strip cap R F now t t' u b :
  t <> [] -> t' <> [] -> Router.strip t = Router.strip t' ->
  Router.handle_message cap R F now (Some t) u b
  = Router.handle_message cap R F now (Some t') u b.
Proof.
  intros Ht Ht' E. destruct t as [|c t]; [contradiction|].
  destruct t' as [|c' t']; [contradiction|].
  unfold Router.handle_message. now rewrite E.
Qed.

Lemma handle_message_other cap R F now t u b :
  Router.strip t <> Router.plus -> Router.strip t <> Router.minus ->
  Router.handle_message cap R F now (Some t) u b = (b, None).
Proof.
  intros Hp Hm. destruct t as [|c t]; [reflexivity|].
  unfold Router.handle_message.
  destruct (Router.text_eqb (Router.strip (c :: t)) Router.plus) eqn:Ep.
  - apply text_eqb_eq in Ep. contradiction.
  - destruct (Router.text_eqb (Router.strip (c :: t)) Router.minus) eqn:Em.
    + apply text_eqb_eq in Em. contradiction.
    + reflexivity.
Qed.

(** Every branch of "+" and of "-" ends in a [reply_text]. *)
Lemma handle_message_sign_replies cap R F now m u b :
  m = Router.plus \/ m = Router.minus ->
  snd (Router.handle_message cap R F now (Some m) u b) <> None.
Proof.
  intros [-> | ->]; unfold Router.handle_message; simpl.
  - destruct (add_participant cap (Router.tg_id u) (Router.first_name u)
                (Router.table b)) as [d [|]]; simpl; [|discriminate].
    destruct (F _ _ _); discriminate.
  - destruct (remove_participant (Router.tg_id u) (Router.table b))
      as [d [|]]; simpl; [|discriminate].
    destruct (F _ _ _); discriminate.
Qed.

Lemma strip_pad_sign ws1 ws2 m :
  m = Router.plus \/ m = Router.minus ->
  forallb Router.isspace ws1 = true -> forallb Router.isspace ws2 = true ->
  Router.strip (ws1 ++ m ++ ws2) = m.
Proof.
  intros [-> | ->] H1 H2; now apply strip_pad.
Qed.

(** A text whose stripped form is a sign is handled as the sign. *)
Lemma handle_message_stripped_sign cap R F now t m u b :
  m = Router.plus \/ m = Router.minus -> Router.strip t = m ->
  Router.handle_message cap R F now (Some t) u b
  = Router.handle_message cap R F now (Some m) u b.
Proof.
  intros Hm E. apply handle_message_strip.
  - intros ->. destruct Hm as [-> | ->]; discriminate.
  - destruct Hm as [-> | ->]; discriminate.
  - rewrite E. destruct Hm as [-> | ->]; reflexivity.
Qed.

(** X3. Surrounding whitespace does not count: a text that is "+" or "-"
    with any whitespace (in the sense of [str.isspace]) before and after it
    is handled exactly as the bare sign, in the table, in the log and in the
    reply. *)
Theorem handle_message_padding (MAX_PARTICIPANTS : nat)
    (RESPONSES : string -> string)
    (FORMAT : string -> nat -> nat -> option string)
    (now : string) (ws1 ws2 m : Router.text) (u : Router.user) (b : Router.bot) :
  m = Router.plus \/ m = Router.minus ->
  forallb Router.isspace ws1 = true -> forallb Router.isspace ws2 = true ->
  Router.handle_message MAX_PARTICIPANTS RESPONSES FORMAT now
    (Some (ws1 ++ m ++ ws2)) u b
  = Router.handle_message MAX_PARTICIPANTS RESPONSES FORMAT now (Some m) u b.
Proof.
  intros Hm H1 H2. apply handle_message_stripped_sign; [exact Hm|].
  now apply strip_pad_sign.
Qed.

(** A tab and a space before "+", a line feed after it. *)
Lemma handle_message_padding_witness :
  Router.handle_message 5 (fun k => k) (fun _ _ _ => None) "t"
    (Some ([9; 32] ++ Router.plus ++ [10])%N) (Router.mkUser 10 "A")
    (Router.startup AuditLog.Missing)
  = Router.handle_message 5 (fun k => k) (fun _ _ _ => None) "t"
      (Some Router.plus) (Router.mkUser 10 "A") (Router.startup AuditLog.Missing).
Proof.
  apply (handle_message_padding 5 (fun k => k) (fun _ _ _ => None) "t"
           [9; 32]%N [10]%N Router.plus).
  - left; reflexivity.
  - reflexivity.
  - reflexivity.
Defined.

(** X4. The handler answers a text exactly when the text is "+" or "-" up
    to surrounding whitespace. *)
Theorem handle_message_answers_iff (MAX_PARTICIPANTS : nat)
    (RESPONSES : string -> string)
    (FORMAT : string -> nat -> nat -> option string)
    (now : string) (t : Router.text) (u : Router.user) (b : Router.bot) :
  snd (Router.handle_message MAX_PARTICIPANTS RESPONSES FORMAT now (Some t) u b)
    <> None
  <-> exists ws1 ws2 m,
        (m = Router.plus \/ m = Router.minus) /\
        forallb Router.isspace ws1 = true /\ forallb Router.isspace ws2 = true /\
        t = ws1 ++ m ++ ws2.
Proof.
  split.
  - intros H.
    destruct (Router.text_eqb (Router.strip t) Router.plus) eqn:Ep.
    + apply text_eqb_eq, strip_singleton_inv in Ep as (ws1 & ws2 & H1 & H2 & ->).
      exists ws1, ws2, Router.plus. repeat split; try assumption. now left.
    + destruct (Router.text_eqb (Router.strip t) Router.minus) eqn:Em.
      * apply text_eqb_eq, strip_singleton_inv in Em as (ws1 & ws2 & H1 & H2 & ->).
        exists ws1, ws2, Router.minus. repeat split; try assumption. now right.
      * exfalso. apply H. rewrite handle_message_other; [reflexivity| |].
        -- intros E. apply text_eqb_eq in E. congruence.
        -- intros E. apply text_eqb_eq in E. congruence.
  - intros (ws1 & ws2 & m & Hm & H1 & H2 & ->).
    rewrite (handle_message_stripped_sign _ _ _ _ _ m _ _ Hm
               (strip_pad_sign ws1 ws2 m Hm H1 H2)).
    now apply handle_message_sign_replies.
Qed.

(** X5. A message that gets no answer leaves no trace: when the handler
    sends no reply (no message, no text, or a text that is neither sign),
    the table and the log file are what they were. *)
Theorem handle_message_silent_unchanged (MAX_PARTICIPANTS : nat)
    (RESPONSES : string -> string)
    (FORMAT : string -> nat -> nat -> option string)
    (now : string) (msg : option Router.text) (u : Router.user) (b : Router.bot) :
  snd (Router.handle_message MAX_PARTICIPANTS RESPONSES FORMAT now msg u b) = None ->
  fst (Router.handle_message MAX_PARTICIPANTS RESPONSES FORMAT now msg u b) = b.
Proof.
  destruct msg as [t|]; [|reflexivity].
  destruct (Router.text_eqb (Router.strip t) Router.plus) eqn:Ep.
  - intros H. exfalso. revert H.
    apply text_eqb_eq in Ep.
    rewrite (handle_message_stripped_sign _ _ _ _ t Router.plus); auto.
    apply handle_message_sign_replies. now left.
  - destruct (Router.text_eqb (Router.strip t) Router.minus) eqn:Em.
    + intros H. exfalso. revert H.
      apply text_eqb_eq in Em.
      rewrite (handle_message_stripped_sign _ _ _ _ t Router.minus); auto.
      apply handle_message_sign_replies. now right.
    + intros _. rewrite handle_message_other; [reflexivity| |].
      * intros E. apply text_eqb_eq in E. congruence.
      * intros E. apply text_eqb_eq in E. congruence.
Qed.

(** The text "++" on a roster with two entries. *)
Lemma handle_message_silent_unchanged_witness :
  fst (Router.handle_message 5 (fun k => k) (fun _ _ _ => None) "t"
         (Some [43; 43]%N) (Router.mkUser 10 "A")
         (Router.mkBot roster_AB AuditLog.Missing))
  = Router.mkBot roster_AB AuditLog.Missing.
Proof.
  apply (handle_message_silent_unchanged 5 (fun k => k) (fun _ _ _ => None) "t"
           (Some [43; 43]%N) (Router.mkUser 10 "A")
           (Router.mkBot roster_AB AuditLog.Missing)).
  reflexivity.
Defined.

(** * Joining and leaving through the handler *)

Lemma bot_eta b : {| Router.table := Router.table b; Router.audit := Router.audit b |} = b.
Proof. now destruct b. Qed.

Lemma handle_message_plus cap R F now u b :
  Router.handle_message cap R F now (Some Router.plus) u b
  = let (d, added) :=
      add_participant cap (Router.tg_id u) (Router.first_name u) (Router.table b) in
    if added then
      match F (R "participated"%string) (get_participants_count d) cap with
      | Some head =>
          ({| Router.table := d;
              Router.audit :=
                AuditLog.log_command now (Router.tg_id u) (Router.first_name u)
                  "participate"
                  ("Added to global list. Total: "
                     ++ str_of_nat (get_participants_count d))
                  (Router.audit b) |},
           Some (head ++ newline ++ newline
                   ++ format_participants_list cap R (get_all_participants d))%string)
      | None =>
          ({| Router.table := d; Router.audit := Router.audit b |},
           Some (R "error"%string))
      end
    else ({| Router.table := d; Router.audit := Router.audit b |},
          Some (R "list_full"%string)).
Proof. reflexivity. Qed.

Lemma handle_message_minus cap R F now u b :
  Router.handle_message cap R F now (Some Router.minus) u b
  = let (d, removed) := remove_participant (Router.tg_id u) (Router.table b) in
    if removed then
      match F (R "removed"%string) (get_participants_count d) cap with
      | Some head =>
          ({| Router.table := d;
              Router.audit :=
                AuditLog.log_command now (Router.tg_id u) (Router.first_name u)
                  "remove"
                  ("Removed from global list. Total: "
                     ++ str_of_nat (get_participants_count d))
                  (Router.audit b) |},
           Some (head ++ newline ++ newline
                   ++ format_participants_list cap R (get_all_participants d))%string)
      | None =>
          ({| Router.table := d; Router.audit := Router.audit b |},
           Some (R "error"%string))
      end
    else ({| Router.table := d; Router.audit := Router.audit b |},
          Some (R "not_in_list"%string)).
Proof. reflexivity. Qed.

Lemma count_after_insert d r s :
  get_participants_count {| rows := rows d ++ [r]; seq := s |}
  = S (get_participants_count d).
Proof.
  unfold get_participants_count, select_count; simpl.
  rewrite length_app; simpl. lia.
Qed.

(** X6. A "+" on a roster with room: the sender's entry goes to the end of
    the table, the reply is the 'participated' text for the new total, an
    empty line and the roster with the sender's name as its last entry, and
    one record 'participate' with the same total goes to the log. *)
Theorem handle_message_join (MAX_PARTICIPANTS : nat)
    (RESPONSES : string -> string)
    (FORMAT : string -> nat -> nat -> option string)
    (now head : string) (u : Router.user) (b : Router.bot) :
  (get_participants_count (Router.table b) < MAX_PARTICIPANTS)%nat ->
  FORMAT (RESPONSES "participated"%string)
    (S (get_participants_count (Router.table b))) MAX_PARTICIPANTS = Some head ->
  Router.handle_message MAX_PARTICIPANTS RESPONSES FORMAT now (Some Router.plus) u b
  = ({| Router.table :=
          {| rows := rows (Router.table b)
                     ++ [mkRow (seq (Router.table b) + 1) (Router.tg_id u)
                           (Router.first_name u)];
             seq := seq (Router.table b) + 1 |};
        Router.audit :=
          AuditLog.log_command now (Router.tg_id u) (Router.first_name u)
            "participate"
            ("Added to global list. Total: "
               ++ str_of_nat (S (get_participants_count (Router.table b))))
            (Router.audit b) |},
     Some (head ++ newline ++ newline
             ++ format_participants_list MAX_PARTICIPANTS RESPONSES
                  (get_all_participants (Router.table b) ++ [Router.first_name u]))%string).
Proof.
  intros Hroom Hfmt. rewrite handle_message_plus.
  rewrite add_participant_room by exact Hroom.
  rewrite count_after_insert.
  rewrite Hfmt.
  unfold get_all_participants, select_usernames; cbn [rows].
  rewrite map_app. reflexivity.
Qed.

Lemma handle_message_join_witness :
  Router.handle_message 3 (fun k => k)
    (fun t a c => Some (t ++ " " ++ str_of_nat a ++ "/" ++ str_of_nat c)%string)
    "t" (Some Router.plus) (Router.mkUser 30 "C")
    (Router.mkBot roster_AB AuditLog.Missing)
  = ({| Router.table :=
          {| rows := rows roster_AB ++ [mkRow (seq roster_AB + 1) 30 "C"];
             seq := seq roster_AB + 1 |};
        Router.audit :=
          AuditLog.log_command "t" 30 "C" "participate"
            ("Added to global list. Total: " ++ str_of_nat 3) AuditLog.Missing |},
     Some ("participated 3/3" ++ newline ++ newline
             ++ format_participants_list 3 (fun k => k)
                  (get_all_participants roster_AB ++ ["C"%string]))%string).
Proof.
  apply (handle_message_join 3 (fun k => k)
           (fun t a c => Some (t ++ " " ++ str_of_nat a ++ "/" ++ str_of_nat c)%string)
           "t" "participated 3/3" (Router.mkUser 30 "C")
           (Router.mkBot roster_AB AuditLog.Missing)).
  - unfold get_participants_count, select_count; simpl; lia.
  - reflexivity.
Defined.

(** X7. A "-" from a user with an entry, on a well-formed table: the
    total drops by one, the entries left are the old ones without the
    sender's last entry, the reply is the 'removed' text for the new total,
    an empty line and the roster that is left, and one record 'remove' with
    the new total goes to the log. *)
Theorem handle_message_leave (MAX_PARTICIPANTS : nat)
    (RESPONSES : string -> string)
    (FORMAT : string -> nat -> nat -> option string)
    (now head : string) (u : Router.user) (b : Router.bot) :
  well_formed (Router.table b) ->
  (exists r, In r (rows (Router.table b)) /\ user_id r = Router.tg_id u) ->
  FORMAT (RESPONSES "removed"%string)
    (pred (get_participants_count (Router.table b))) MAX_PARTICIPANTS = Some head ->
  exists d,
    get_participants_count d = pred (get_participants_count (Router.table b)) /\
    map entry_of (rows d)
      = spec_remove_one (Router.tg_id u) (map entry_of (rows (Router.table b))) /\
    Router.handle_message MAX_PARTICIPANTS RESPONSES FORMAT now (Some Router.minus) u b
    = ({| Router.table := d;
          Router.audit :=
            AuditLog.log_command now (Router.tg_id u) (Router.first_name u)
              "remove"
              ("Removed from global list. Total: "
                 ++ str_of_nat (pred (get_participants_count (Router.table b))))
              (Router.audit b) |},
       Some (head ++ newline ++ newline
               ++ format_participants_list MAX_PARTICIPANTS RESPONSES
                    (get_all_participants d))%string).
Proof.
  intros Hwf (r & Hin & Hu) Hfmt.
  destruct (remove_participant_present _ _ r Hwf Hin Hu)
    as (l1 & r0 & l2 & Hsplit & _ & Hrm).
  assert (Hcount :
    get_participants_count {| rows := l1 ++ l2; seq := seq (Router.table b) |}
    = pred (get_participants_count (Router.table b))).
  { unfold get_participants_count, select_count; simpl.
    rewrite Hsplit, !length_app; simpl. lia. }
  eexists. split; [exact Hcount|]. split.
  - pose proof (step_refines MAX_PARTICIPANTS (Router.table b)
                  (RemoveOne (Router.tg_id u)) Hwf) as Href.
    simpl in Href. rewrite Hrm in Href. exact Href.
  - rewrite handle_message_minus, Hrm, Hcount, Hfmt. reflexivity.
Qed.

Lemma handle_message_leave_witness :
  exists d,
    get_participants_count d = pred (get_participants_count roster_ABA) /\
    map entry_of (rows d) = spec_remove_one 10 (map entry_of (rows roster_ABA)) /\
    Router.handle_message 5 (fun k => k) (fun t _ _ => Some t) "t"
      (Some Router.minus) (Router.mkUser 10 "A")
      (Router.mkBot roster_ABA AuditLog.Missing)
    = ({| Router.table := d;
          Router.audit :=
            AuditLog.log_command "t" 10 "A" "remove"
              ("Removed from global list. Total: "
                 ++ str_of_nat (pred (get_participants_count roster_ABA)))
              AuditLog.Missing |},
       Some ("removed" ++ newline ++ newline
               ++ format_participants_list 5 (fun k => k)
                    (get_all_participants d))%string).
Proof.
  apply (handle_message_leave 5 (fun k => k) (fun t _ _ => Some t) "t" "removed"
           (Router.mkUser 10 "A") (Router.mkBot roster_ABA AuditLog.Missing)).
  - reflexivity.
  - exists (mkRow 1 10 "A"). split; [now left|reflexivity].
  - reflexivity.
Defined.

(** X8. Refused signs leave no trace: a "+" on a full roster is answered
    with 'list_full', a "-" from a user without entry with 'not_in_list',
    and in both cases the table and the log file stay as they are; no
    audit record is written for them. *)
Theorem refused_sign_no_trace (MAX_PARTICIPANTS : nat)
    (RESPONSES : string -> string)
    (FORMAT : string -> nat -> nat -> option string)
    (now : string) (u : Router.user) (b : Router.bot) :
  ((MAX_PARTICIPANTS <= get_participants_count (Router.table b))%nat ->
   Router.handle_message MAX_PARTICIPANTS RESPONSES FORMAT now (Some Router.plus) u b
   = (b, Some (RESPONSES "list_full"%string))) /\
  ((forall r, In r (rows (Router.table b)) -> user_id r <> Router.tg_id u) ->
   Router.handle_message MAX_PARTICIPANTS RESPONSES FORMAT now (Some Router.minus) u b
   = (b, Some (RESPONSES "not_in_list"%string))).
Proof.
  split; intros H.
  - rewrite handle_message_plus, add_participant_full by exact H.
    now rewrite bot_eta.
  - rewrite handle_message_minus, remove_participant_absent by exact H.
    now rewrite bot_eta.
Qed.

Lemma refused_sign_no_trace_witness :
  Router.handle_message 2 (fun k => k) (fun t _ _ => Some t) "t"
    (Some Router.plus) (Router.mkUser 30 "C") (Router.mkBot roster_AB AuditLog.Missing)
  = (Router.mkBot roster_AB AuditLog.Missing, Some "list_full"%string) /\
  Router.handle_message 2 (fun k => k) (fun t _ _ => Some t) "t"
    (Some Router.minus) (Router.mkUser 30 "C") (Router.mkBot roster_AB AuditLog.Missing)
  = (Router.mkBot roster_AB AuditLog.Missing, Some "not_in_list"%string).
Proof.
  split.
  - apply (proj1 (refused_sign_no_trace 2 (fun k => k) (fun t _ _ => Some t) "t"
                    (Router.mkUser 30 "C") (Router.mkBot roster_AB AuditLog.Missing))).
    unfold get_participants_count, select_count; simpl; lia.
  - apply (proj2 (refused_sign_no_trace 2 (fun k => k) (fun t _ _ => Some t) "t"
                    (Router.mkUser 30 "C") (Router.mkBot roster_AB AuditLog.Missing))).
    intros r [<-|[<-|[]]]; simpl; lia.
Defined.

(** X9. When [str.format] raises on the 'participated' template, the "+"
    has taken effect all the same: the entry is in the table, the sender
    is answered with 'error', and no audit record is written. *)
Theorem handle_message_join_format_error (MAX_PARTICIPANTS : nat)
    (RESPONSES : string -> string)
    (FORMAT : string -> nat -> nat -> option string)
    (now : string) (u : Router.user) (b : Router.bot) :
  (get_participants_count (Router.table b) < MAX_PARTICIPANTS)%nat ->
  FORMAT (RESPONSES "participated"%string)
    (S (get_participants_count (Router.table b))) MAX_PARTICIPANTS = None ->
  Router.handle_message MAX_PARTICIPANTS RESPONSES FORMAT now (Some Router.plus) u b
  = ({| Router.table :=
          {| rows := rows (Router.table b)
                     ++ [mkRow (seq (Router.table b) + 1) (Router.tg_id u)
                           (Router.first_name u)];
             seq := seq (Router.table b) + 1 |};
        Router.audit := Router.audit b |},
     Some (RESPONSES "error"%string)).
Proof.
  intros Hroom Hfmt. rewrite handle_message_plus.
  rewrite add_participant_room by exact Hroom.
  rewrite count_after_insert.
  now rewrite Hfmt.
Qed.

Lemma handle_message_join_format_error_witness :
  Router.handle_message 3 (fun k => k) (fun _ _ _ => None) "t"
    (Some Router.plus) (Router.mkUser 30 "C") (Router.mkBot roster_AB AuditLog.Missing)
  = ({| Router.table :=
          {| rows := rows roster_AB ++ [mkRow (seq roster_AB + 1) 30 "C"];
             seq := seq roster_AB + 1 |};
        Router.audit := AuditLog.Missing |},
     Some "error"%string).
Proof.
  apply (handle_message_join_format_error 3 (fun k => k) (fun _ _ _ => None) "t"
           (Router.mkUser 30 "C") (Router.mkBot roster_AB AuditLog.Missing)).
  - unfold get_participants_count, select_count; simpl; lia.
  - reflexivity.
Defined.

(** * /clear and /list *)

Lemma is_admin_false status :
  status <> "creator"%string -> status <> "administrator"%string ->
  existsb (String.eqb status) ["creator"; "administrator"]%string = false.
Proof.
  intros H1 H2. simpl.
  apply String.eqb_neq in H1, H2. now rewrite H1, H2.
Qed.

(** X10. /clear needs an admin: unless get_chat_member answers 'creator'
    or 'administrator', the command changes neither the table nor the log
    file; in a chat it answers 'error' when the lookup raises and
    'not_admin' for every other status. *)
Theorem clear_command_needs_admin (RESPONSES : string -> string)
    (now : string) (chat : option Z) (member : option string)
    (u : Router.user) (b : Router.bot) :
  member <> Some "creator"%string -> member <> Some "administrator"%string ->
  fst (Router.clear_command RESPONSES now chat member u b) = b /\
  forall c, chat = Some c ->
    snd (Router.clear_command RESPONSES now chat member u b)
    = Some (match member with
            | None => RESPONSES "error"%string
            | Some _ => RESPONSES "not_admin"%string
            end).
Proof.
  intros H1 H2. unfold Router.clear_command.
  destruct chat as [c|]; [|split; [reflexivity|discriminate]].
  destruct member as [status|]; [|split; [reflexivity|reflexivity]].
  rewrite is_admin_false by congruence. split; reflexivity.
Qed.

Lemma clear_command_needs_admin_witness :
  fst (Router.clear_command (fun k => k) "t" (Some 7) (Some "member"%string)
         (Router.mkUser 30 "C") (Router.mkBot roster_AB AuditLog.Missing))
  = Router.mkBot roster_AB AuditLog.Missing /\
  forall c, Some 7 = Some c ->
    snd (Router.clear_command (fun k => k) "t" (Some 7) (Some "member"%string)
           (Router.mkUser 30 "C") (Router.mkBot roster_AB AuditLog.Missing))
    = Some "not_admin"%string.
Proof.
  apply (clear_command_needs_admin (fun k => k) "t" (Some 7) (Some "member"%string)
           (Router.mkUser 30 "C") (Router.mkBot roster_AB AuditLog.Missing));
    discriminate.
Defined.

(** X11. After /clear by a creator or administrator of the chat the
    roster is empty for everybody: the table has no row, a /list from any
    user is answered with 'list_empty', and the log has got the record of
    the /clear; the table part is what the roster's ClearAll does. *)
Theorem clear_command_then_list (MAX_PARTICIPANTS : nat)
    (RESPONSES : string -> string)
    (now now' status : string) (c : Z) (u u' : Router.user) (b : Router.bot) :
  status = "creator"%string \/ status = "administrator"%string ->
  Router.table (fst (Router.clear_command RESPONSES now (Some c) (Some status) u b))
    = fst (clear_command RESPONSES (Some c) status (Router.table b)) /\
  get_participants_count
    (Router.table (fst (Router.clear_command RESPONSES now (Some c) (Some status) u b)))
    = 0%nat /\
  Router.audit (fst (Router.clear_command RESPONSES now (Some c) (Some status) u b))
    = AuditLog.log_command now (Router.tg_id u) (Router.first_name u) "/clear"
        "Manually cleared participant list" (Router.audit b) /\
  snd (Router.list_participants_cmd MAX_PARTICIPANTS RESPONSES now' u'
         (fst (Router.clear_command RESPONSES now (Some c) (Some status) u b)))
    = Some (RESPONSES "list_empty"%string).
Proof.
  intros [-> | ->]; repeat split.
Qed.

Lemma clear_command_then_list_witness :
  Router.table (fst (Router.clear_command (fun k => k) "t" (Some 7)
                       (Some "creator"%string) (Router.mkUser 10 "A")
                       (Router.mkBot roster_AB AuditLog.Missing)))
    = fst (clear_command (fun k => k) (Some 7) "creator" roster_AB) /\
  get_participants_count
    (Router.table (fst (Router.clear_command (fun k => k) "t" (Some 7)
                          (Some "creator"%string) (Router.mkUser 10 "A")
                          (Router.mkBot roster_AB AuditLog.Missing))))
    = 0%nat /\
  Router.audit (fst (Router.clear_command (fun k => k) "t" (Some 7)
                       (Some "creator"%string) (Router.mkUser 10 "A")
                       (Router.mkBot roster_AB AuditLog.Missing)))
    = AuditLog.log_command "t" 10 "A" "/clear"
        "Manually cleared participant list" AuditLog.Missing /\
  snd (Router.list_participants_cmd 5 (fun k => k) "t2" (Router.mkUser 20 "B")
         (fst (Router.clear_command (fun k => k) "t" (Some 7)
                 (Some "creator"%string) (Router.mkUser 10 "A")
                 (Router.mkBot roster_AB AuditLog.Missing))))
    = Some "list_empty"%string.
Proof.
  apply (clear_command_then_list 5 (fun k => k) "t" "t2" "creator" 7
           (Router.mkUser 10 "A") (Router.mkUser 20 "B")
           (Router.mkBot roster_AB AuditLog.Missing)).
  now left.
Defined.

(** * Any sequence of updates *)

(** What a handler does to the table is nothing or one roster operation. *)
Lemma handle_table cap R F b up :
  Router.table (fst (Router.handle cap R F b up)) = Router.table b \/
  exists o, Router.table (fst (Router.handle cap R F b up)) = step cap (Router.table b) o.
Proof.
  unfold Router.handle. destruct (Router.what up) as [| | |chat member|msg].
  - now left.
  - now left.
  - now left.
  - unfold Router.clear_command.
    destruct chat; [|now left]. destruct member as [status|]; [|now left].
    destruct (negb _); [now left|]. right. now exists ClearAll.
  - destruct msg as [t|]; [|now left].
    destruct (Router.text_eqb (Router.strip t) Router.plus) eqn:Ep.
    + apply text_eqb_eq in Ep.
      rewrite (handle_message_stripped_sign _ _ _ _ t Router.plus); auto.
      rewrite handle_message_plus. right.
      exists (Add (Router.tg_id (Router.sender up)) (Router.first_name (Router.sender up))).
      simpl. destruct (add_participant _ _ _ _) as [d [|]]; simpl; [|reflexivity].
      destruct (F _ _ _); reflexivity.
    + destruct (Router.text_eqb (Router.strip t) Router.minus) eqn:Em.
      * apply text_eqb_eq in Em.
        rewrite (handle_message_stripped_sign _ _ _ _ t Router.minus); auto.
        rewrite handle_message_minus. right.
        exists (RemoveOne (Router.tg_id (Router.sender up))).
        simpl. destruct (remove_participant _ _) as [d [|]]; simpl; [|reflexivity].
        destruct (F _ _ _); reflexivity.
      * left. rewrite handle_message_other; [reflexivity| |].
        -- intros E. apply text_eqb_eq in E. congruence.
        -- intros E. apply text_eqb_eq in E. congruence.
Qed.

(** What a handler does to the log file is nothing or one [log_command]. *)
Lemma handle_audit cap R F b up :
  Router.audit (fst (Router.handle cap R F b up)) = Router.audit b \/
  exists c, Router.audit (fst (Router.handle cap R F b up))
            = AuditLog.log_call (Router.audit b) c.
Proof.
  unfold Router.handle. destruct (Router.what up) as [| | |chat member|msg].
  - right. now eexists (AuditLog.mkCall _ _ _ _ _).
  - right. now eexists (AuditLog.mkCall _ _ _ _ _).
  - right. now eexists (AuditLog.mkCall _ _ _ _ _).
  - unfold Router.clear_command.
    destruct chat; [|now left]. destruct member as [status|]; [|now left].
    destruct (negb _); [now left|]. right. now eexists (AuditLog.mkCall _ _ _ _ _).
  - destruct msg as [t|]; [|now left].
    destruct (Router.text_eqb (Router.strip t) Router.plus) eqn:Ep.
    + apply text_eqb_eq in Ep.
      rewrite (handle_message_stripped_sign _ _ _ _ t Router.plus); auto.
      rewrite handle_message_plus.
      destruct (add_participant _ _ _ _) as [d [|]]; simpl; [|now left].
      destruct (F _ _ _); simpl; [|now left].
      right. now eexists (AuditLog.mkCall _ _ _ _ _).
    + destruct (Router.text_eqb (Router.strip t) Router.minus) eqn:Em.
      * apply text_eqb_eq in Em.
        rewrite (handle_message_stripped_sign _ _ _ _ t Router.minus); auto.
        rewrite handle_message_minus.
        destruct (remove_participant _ _) as [d [|]]; simpl; [|now left].
        destruct (F _ _ _); simpl; [|now left].
        right. now eexists (AuditLog.mkCall _ _ _ _ _).
      * left. rewrite handle_message_other; [reflexivity| |].
        -- intros E. apply text_eqb_eq in E. congruence.
        -- intros E. apply text_eqb_eq in E. congruence.
Qed.

Lemma run_updates_snoc cap R F ups up b :
  Router.run_updates cap R F (ups ++ [up]) b
  = fst (Router.handle cap R F (Router.run_updates cap R F ups b) up).
Proof. unfold Router.run_updates. now rewrite fold_left_app. Qed.

Lemma run_snoc cap ops o : run cap (ops ++ [o]) = step cap (run cap ops) o.
Proof. unfold run. now rewrite fold_left_app. Qed.

Lemma run_count cap ops : (get_participants_count (run cap ops) <= cap)%nat.
Proof.
  induction ops as [|o ops IH] using rev_ind.
  - unfold get_participants_count, select_count; simpl; lia.
  - rewrite run_snoc. now apply step_count.
Qed.

(** X12. Whatever updates arrive after the start of the bot, in whatever
    order, the table is one that a sequence of roster operations (at most
    one per update) produces from the empty table; so it never holds more
    than MAX_PARTICIPANTS rows and its ids stay positive, increasing and
    below the AUTOINCREMENT counter. *)
Theorem updates_keep_roster (MAX_PARTICIPANTS : nat)
    (RESPONSES : string -> string)
    (FORMAT : string -> nat -> nat -> option string)
    (ups : list (Router.update)) (f : AuditLog.logfile) :
  (exists ops,
     (length ops <= length ups)%nat /\
     Router.table (Router.run_updates MAX_PARTICIPANTS RESPONSES FORMAT ups
                     (Router.startup f))
     = run MAX_PARTICIPANTS ops) /\
  (get_participants_count
     (Router.table (Router.run_updates MAX_PARTICIPANTS RESPONSES FORMAT ups
                      (Router.startup f)))
   <= MAX_PARTICIPANTS)%nat /\
  well_formed
    (Router.table (Router.run_updates MAX_PARTICIPANTS RESPONSES FORMAT ups
                     (Router.startup f))).
Proof.
  assert (H : exists ops,
     (length ops <= length ups)%nat /\
     Router.table (Router.run_updates MAX_PARTICIPANTS RESPONSES FORMAT ups
                     (Router.startup f))
     = run MAX_PARTICIPANTS ops).
  { induction ups as [|up ups (ops & Hlen & IH)] using rev_ind.
    - exists []. split; [simpl; lia|reflexivity].
    - rewrite run_updates_snoc, length_app; simpl.
      destruct (handle_table MAX_PARTICIPANTS RESPONSES FORMAT
                  (Router.run_updates MAX_PARTICIPANTS RESPONSES FORMAT ups
                     (Router.startup f)) up) as [E|(o & E)]; rewrite E, IH.
      + exists ops. split; [lia|reflexivity].
      + exists (ops ++ [o]). rewrite length_app, run_snoc; simpl.
        split; [lia|reflexivity]. }
  split; [exact H|]. destruct H as (ops & _ & ->).
  split; [apply run_count|apply run_well_formed].
Qed.

(** X13. The handlers only append to the log: when the log file is absent,
    no JSON or a JSON list, then after any sequence of updates [get_logs]
    returns the records that were there followed by new ones, at most one
    per update. *)
Theorem updates_append_to_log (MAX_PARTICIPANTS : nat)
    (RESPONSES : string -> string)
    (FORMAT : string -> nat -> nat -> option string)
    (ups : list (Router.update)) (b : Router.bot) (l : list AuditLog.json) :
  AuditLog.held_list (Router.audit b) = Some l ->
  exists new,
    (length new <= length ups)%nat /\
    AuditLog.get_logs
      (Router.audit (Router.run_updates MAX_PARTICIPANTS RESPONSES FORMAT ups b))
    = Some (AuditLog.JArr (l ++ new)).
Proof.
  intros Hl.
  assert (H : exists new,
    (length new <= length ups)%nat /\
    AuditLog.held_list
      (Router.audit (Router.run_updates MAX_PARTICIPANTS RESPONSES FORMAT ups b))
    = Some (l ++ new)).
  { induction ups as [|up ups (new & Hlen & IH)] using rev_ind.
    - exists []. split; [simpl; lia|]. now rewrite app_nil_r.
    - rewrite run_updates_snoc, length_app; simpl.
      destruct (handle_audit MAX_PARTICIPANTS RESPONSES FORMAT
                  (Router.run_updates MAX_PARTICIPANTS RESPONSES FORMAT ups b) up)
        as [E|(c & E)]; rewrite E.
      + exists new. split; [lia|exact IH].
      + exists (new ++ [AuditLog.entry_of_call c]).
        rewrite length_app; simpl. split; [lia|].
        rewrite (log_call_held _ c _ IH). now rewrite app_assoc. }
  destruct H as (new & Hlen & H). exists new. split; [exact Hlen|].
  now apply get_logs_held.
Qed.

(** /start, a "+" and a refused /clear on a fresh bot without log file. *)
Lemma updates_append_to_log_witness :
  exists new,
    (length new <= 3)%nat /\
    AuditLog.get_logs
      (Router.audit
         (Router.run_updates 5 (fun k => k) (fun t _ _ => Some t)
            [Router.mkUpdate "t1" (Router.mkUser 10 "A") Router.StartCmd;
             Router.mkUpdate "t2" (Router.mkUser 10 "A")
               (Router.TextMessage (Some Router.plus));
             Router.mkUpdate "t3" (Router.mkUser 10 "A")
               (Router.ClearCmd (Some 7) (Some "member"%string))]
            (Router.startup AuditLog.Missing)))
    = Some (AuditLog.JArr ([] ++ new)).
Proof.
  apply (updates_append_to_log 5 (fun k => k) (fun t _ _ => Some t)
           [Router.mkUpdate "t1" (Router.mkUser 10 "A") Router.StartCmd;
            Router.mkUpdate "t2" (Router.mkUser 10 "A")
              (Router.TextMessage (Some Router.plus));
            Router.mkUpdate "t3" (Router.mkUser 10 "A")
              (Router.ClearCmd (Some 7) (Some "member"%string))]
           (Router.startup AuditLog.Missing) []).
  reflexivity.
Defined.

(** * More on the rendering *)

Lemma dict_bump_sum x d :
  list_sum_counts (dict_set x (dict_get x 0%nat d + 1)%nat d)
  = S (list_sum_counts d).
Proof.
  unfold list_sum_counts. induction d as [|[k v] d IH]; simpl.
  - reflexivity.
  - destruct (String.eqb k x); simpl.
    + lia.
    + rewrite IH. lia.
Qed.

Lemma count_names_keys l : map fst (count_names l) = first_occurrences l.
Proof.
  rewrite count_names_spec. unfold tabulate. rewrite map_map. simpl.
  apply map_id.
Qed.

(** X14. The dict of counts that the rendering loop builds has every name
    of the roster as a key exactly once, and its counts add up to the
    number of entries: the multiplicities on the name lines sum to the
    total in the header. *)
Theorem count_names_totals (participants : list string) :
  NoDup (map fst (count_names participants)) /\
  (forall name, In name participants <-> In name (map fst (count_names participants))) /\
  list_sum_counts (count_names participants) = length participants.
Proof.
  split; [|split].
  - rewrite count_names_keys. apply first_occurrences_NoDup.
  - intros name. rewrite count_names_keys. symmetry. apply first_occurrences_In.
  - induction participants as [|x l IH] using rev_ind; [reflexivity|].
    rewrite count_names_snoc, dict_bump_sum, IH, length_app; simpl. lia.
Qed.

Lemma first_occurrences_repeat name k :
  first_occurrences (repeat name (S k)) = [name].
Proof.
  induction k as [|k IH]; [reflexivity|].
  change (repeat name (S (S k))) with (name :: repeat name (S k)).
  cbn [first_occurrences]. rewrite IH. simpl. now rewrite String.eqb_refl.
Qed.

Lemma spec_steps_repeat cap uid name k l :
  (length l + k <= cap)%nat ->
  fold_left (spec_step cap) (repeat (Add uid name) k) l
  = l ++ repeat (uid, name) k.
Proof.
  revert l; induction k as [|k IH]; intros l H; simpl.
  - now rewrite app_nil_r.
  - unfold spec_add.
    replace (cap <=? length l)%nat with false by (symmetry; apply Nat.leb_gt; lia).
    rewrite IH by (rewrite length_app; simpl; lia).
    now rewrite <- app_assoc.
Qed.

Lemma get_all_participants_run cap ops :
  get_all_participants (run cap ops) = map snd (spec_run cap ops).
Proof.
  rewrite <- run_refines, map_map. reflexivity.
Qed.

(** X15. Entries stack: when the same user joins k times in a row on the
    fresh roster, k between 1 and MAX_PARTICIPANTS, all k joins are kept
    and the roster renders as the header for k entries and the single
    line of the user's name, with " (xk)" from k = 2 on. *)
Theorem repeated_joins_render (MAX_PARTICIPANTS : nat)
    (RESPONSES : string -> string) (uid : Z) (name : string) (k : nat) :
  (1 <= k <= MAX_PARTICIPANTS)%nat ->
  get_all_participants (run MAX_PARTICIPANTS (repeat (Add uid name) k))
    = repeat name k /\
  format_participants_list MAX_PARTICIPANTS RESPONSES
    (get_all_participants (run MAX_PARTICIPANTS (repeat (Add uid name) k)))
  = (roster_header k MAX_PARTICIPANTS ++ newline ++ roster_line name k)%string.
Proof.
  intros [H1 Hk].
  assert (E : get_all_participants (run MAX_PARTICIPANTS (repeat (Add uid name) k))
              = repeat name k).
  { rewrite get_all_participants_run. unfold spec_run.
    rewrite spec_steps_repeat by (simpl; lia).
    simpl. now rewrite map_repeat. }
  split; [exact E|]. rewrite E.
  destruct k as [|k]; [lia|].
  change (repeat name (S k)) with (name :: repeat name k) at 1.
  rewrite format_participants_list_nonempty.
  change (name :: repeat name k) with (repeat name (S k)).
  rewrite first_occurrences_repeat, repeat_length.
  unfold occurrences. cbn [map String.concat].
  now rewrite (count_occ_repeat_eq string_dec (x := name) (y := name) (S k) eq_refl).
Qed.

Lemma repeated_joins_render_witness :
  get_all_participants (run 5 (repeat (Add 10 "A") 3)) = repeat "A"%string 3 /\
  format_participants_list 5 (fun k => k)
    (get_all_participants (run 5 (repeat (Add 10 "A") 3)))
  = (roster_header 3 5 ++ newline ++ roster_line "A" 3)%string.
Proof.
  apply (repeated_joins_render 5 (fun k => k) 10 "A" 3). lia.
Defined.

(** * RemoveOne and the other users *)

Lemma rows_of_none uid t :
  Forall (fun r => user_id r <> uid) t -> rows_of uid t = [].
Proof.
  unfold rows_of. induction 1 as [|r t Hr _ IH]; simpl; [reflexivity|].
  apply Z.eqb_neq in Hr. now rewrite Hr.
Qed.

(** X16. RemoveOne touches the entries of its user only: on a well-formed
    table the rows of every other user are the same rows in the same
    order afterwards, and the user has one row less (none less when there
    was none). *)
Theorem remove_participant_only_own (uid : Z) (d : db) :
  well_formed d ->
  (forall v, v <> uid ->
     rows_of v (rows (fst (remove_participant uid d))) = rows_of v (rows d)) /\
  length (rows_of uid (rows (fst (remove_participant uid d))))
    = pred (length (rows_of uid (rows d))).
Proof.
  intros Hwf.
  destruct (select_last_id uid (rows d)) as [i|] eqn:E.
  - destruct (select_last_id_Some _ _ _ E) as (r & _ & Hin & Hu & _).
    destruct (remove_participant_present uid d r Hwf Hin Hu)
      as (l1 & r0 & l2 & Hsplit & (_ & Hu0 & _) & Hrm).
    rewrite Hrm, Hsplit. unfold rows_of; simpl. split.
    + intros v Hv. rewrite !filter_app. simpl.
      replace (user_id r0 =? v) with false; [reflexivity|].
      symmetry. apply Z.eqb_neq. congruence.
    + rewrite !filter_app, !length_app. simpl.
      replace (user_id r0 =? uid) with true by (symmetry; now apply Z.eqb_eq).
      simpl. lia.
  - apply select_last_id_None in E.
    rewrite remove_participant_absent
      by (intros r Hr; now apply (proj1 (Forall_forall _ _) E)).
    cbn [fst]. split; [reflexivity|]. now rewrite (rows_of_none uid (rows d) E).
Qed.

Lemma remove_participant_only_own_witness :
  (forall v, v <> 10 ->
     rows_of v (rows (fst (remove_participant 10 roster_ABA)))
     = rows_of v (rows roster_ABA)) /\
  length (rows_of 10 (rows (fst (remove_participant 10 roster_ABA))))
    = pred (length (rows_of 10 (rows roster_ABA))).
Proof.
  apply (remove_participant_only_own 10 roster_ABA). reflexivity.
Defined.
